(** * Two-factor login of secure-2fa-app: the OTP store and the session

    A shallow embedding of [src/app.js]: the three POST handlers
    ([/login], [/verify-otp], [/logout]) and the periodic clean-up of the
    in-memory OTP store, with the properties the specification states
    about them.

    Conventions of the embedding.
    - A JavaScript string is a [string], one character per code unit, so
      that [String.length] is the [.length] of the source.
    - A field of [req.body] is an [option string]: [None] when the form
      does not carry it ([undefined]), [Some s] for the submitted text
      (the credential input is a pair of strings). [Body.post_login] is
      [/login] on fields of any kind (arrays, numbers, ...), and agrees
      with [post_login] on text.
    - [Date.now()] is an integer number of milliseconds, a [Z]; every
      call of it in a handler is a separate reading, passed as an input.
    - [otpStore] is a [gmap string StoredOTP]; [Map.get], [Map.set] and
      [Map.delete] are lookup, insert and delete.
    - A handler is a function from its inputs, the session and the store
      to the response, the session and the store after the request. *)

From Stdlib Require Import ZArith String Ascii Bool Lia.
From stdpp Require Import base tactics option numbers strings pretty gmap fin_maps.

Local Open Scope Z_scope.

(** ** Data *)

(** The value [otpStore] keeps for a key: [{ otp, expires, username }]. *)
Record StoredOTP := mkStoredOTP {
  otp : string;
  expires : Z;
  username : string
}.

(** [req.session.pendingAuth]: [{ username, timestamp }]. *)
Record PendingAuth := mkPendingAuth {
  pending_username : string;
  timestamp : Z
}.

(** The fields of [req.session] the handlers use.  [None] stands for a
    field that is [undefined] or [null]; [authenticated] is only ever
    tested for truth, so an unset flag is [false].  [session_username]
    is [req.session.username]. *)
Record Session := mkSession {
  pendingAuth : option PendingAuth;
  otpKey : option string;
  authenticated : bool;
  session_username : option string;
  loginTime : option Z
}.

(** The session a client without a stored session gets. *)
Definition fresh_session : Session :=
  {| pendingAuth := None; otpKey := None; authenticated := false;
     session_username := None; loginTime := None |}.

(** What a handler answers: [res.render(view, { error })] or
    [res.redirect(path)]. *)
Inductive Response :=
  | Render (view : string) (error : option string)
  | Redirect (path : string).

(** The result of a request. *)
Record Result := mkResult {
  response : Response;
  session_after : Session;
  store_after : gmap string StoredOTP
}.

(** ** Helpers of the source *)

(** [!v] of a body field or session string is false exactly for a
    non-empty string. *)
Definition truthy (v : option string) : bool :=
  match v with
  | Some s => negb (String.eqb s "")
  | None => false
  end.

(** [\d] of a JavaScript regular expression: the ten ASCII digits. *)
Definition is_digit (c : ascii) : bool :=
  ((48 <=? nat_of_ascii c) && (nat_of_ascii c <=? 57))%nat.

(** [/^\d{4}$/.test(password)]: without the [m] flag [$] is the end of
    the input, so the whole string is four digits. *)
Definition test_four_digits (password : string) : bool :=
  match password with
  | String a (String b (String c (String d EmptyString))) =>
      is_digit a && is_digit b && is_digit c && is_digit d
  | _ => false
  end.

(** The template literal [`${username}_${Date.now()}`]. *)
Definition make_otpKey (user : string) (now : Z) : string :=
  user +:+ "_" +:+ pretty now.

(** ** POST /login *)

(** What the handler reads from the outside, in the order of the source:
    the three readings of [Date.now()] (for [pendingAuth.timestamp], for
    the key and for [expires]), the string [generateOTP()] returned, and
    the boolean [sendOTPEmail] resolved to. *)
Record LoginEffects := mkLoginEffects {
  now_pending : Z;
  now_key : Z;
  now_expires : Z;
  generated : string;
  delivered : bool
}.

Definition required_msg : string := "Username and password are required".
Definition too_long_msg : string := "Username must be less than 20 characters".
Definition not_digits_msg : string := "Password must be exactly 4 digits".
Definition send_failed_msg : string := "Failed to send OTP. Please try again.".

Definition post_login (body_username body_password : option string)
    (e : LoginEffects) (s : Session) (store : gmap string StoredOTP) : Result :=
  match body_username, body_password with
  | Some user, Some password =>
      if negb (truthy (Some user)) || negb (truthy (Some password)) then
        mkResult (Render "login" (Some required_msg)) s store
      else if (20 <=? String.length user)%nat then
        mkResult (Render "login" (Some too_long_msg)) s store
      else if negb (test_four_digits password) then
        mkResult (Render "login" (Some not_digits_msg)) s store
      else
        let pending := {| pending_username := user; timestamp := now_pending e |} in
        let key := make_otpKey user (now_key e) in
        let store' :=
          <[ key := {| otp := generated e;
                       expires := now_expires e + 60000;
                       username := user |} ]> store in
        let s' := {| pendingAuth := Some pending;
                     otpKey := Some key;
                     authenticated := authenticated s;
                     session_username := session_username s;
                     loginTime := loginTime s |} in
        if delivered e then mkResult (Redirect "/verify-otp") s' store'
        else mkResult (Render "login" (Some send_failed_msg)) s' store'
  | _, _ => mkResult (Render "login" (Some required_msg)) s store
  end.

(** ** POST /verify-otp *)

Definition not_found_msg : string := "OTP not found or expired".
Definition expired_msg : string := "OTP has expired. Please login again.".
Definition invalid_msg : string := "Invalid OTP. Please try again.".

(** The session with [pendingAuth] and [otpKey] set to [null]. *)
Definition clear_pending (s : Session) : Session :=
  {| pendingAuth := None; otpKey := None;
     authenticated := authenticated s;
     session_username := session_username s;
     loginTime := loginTime s |}.

(** [now] is the reading of [Date.now()] in the expiry test, [date] the
    [new Date()] stored as [loginTime].  [otp !== storedOTPData.otp] is
    strict inequality: an absent field differs from every stored code. *)
Definition post_verify_otp (body_otp : option string) (now date : Z)
    (s : Session) (store : gmap string StoredOTP) : Result :=
  match pendingAuth s with
  | None => mkResult (Redirect "/login") s store
  | Some pending =>
      if negb (truthy (otpKey s)) then mkResult (Redirect "/login") s store
      else
        let key := default "" (otpKey s) in
        match store !! key with
        | None => mkResult (Render "verify-otp" (Some not_found_msg)) s store
        | Some stored =>
            if expires stored <? now then
              mkResult (Render "verify-otp" (Some expired_msg))
                       (clear_pending s) (delete key store)
            else if negb (bool_decide (body_otp = Some (otp stored))) then
              mkResult (Render "verify-otp" (Some invalid_msg)) s store
            else
              mkResult (Redirect "/dashboard")
                {| pendingAuth := None; otpKey := None;
                   authenticated := true;
                   session_username := Some (pending_username pending);
                   loginTime := Some date |}
                (delete key store)
        end
  end.

(** ** POST /logout *)

(** [req.session.destroy] removes the session from the (in-memory)
    session store: the client's next request starts from a fresh session.
    The OTP store is not mentioned by the handler. *)
Definition post_logout (s : Session) (store : gmap string StoredOTP) : Result :=
  mkResult (Redirect "/login") fresh_session store.

(** ** The clean-up timer *)

(** One run of the [setInterval] callback at [now]: the loop over the
    entries deletes those with [now > value.expires] and counts them.
    The result is the store and [cleanedCount]. *)
Definition sweep_entry (now : Z) (key : string) (value : StoredOTP)
    (acc : gmap string StoredOTP * nat) : gmap string StoredOTP * nat :=
  if expires value <? now then (delete key acc.1, S acc.2) else acc.

Definition sweep (now : Z) (store : gmap string StoredOTP)
    : gmap string StoredOTP * nat :=
  map_fold (sweep_entry now) (store, 0%nat) store.

(** ** The registry operations and the phase, as the handlers contain them *)

Inductive Outcome := Valid | Expired | Mismatch | NotFound.

(** The part of [/login] that touches the store: the key and the record
    it sets. *)
Definition issue (user : string) (key_now expires_now : Z) (code : string)
    (store : gmap string StoredOTP) : string * gmap string StoredOTP :=
  let key := make_otpKey user key_now in
  (key, <[ key := {| otp := code; expires := expires_now + 60000;
                     username := user |} ]> store).

(** The part of [/verify-otp] that touches the store, from
    [otpStore.get(otpKey)] on. *)
Definition consume (now : Z) (key : string) (submitted : option string)
    (store : gmap string StoredOTP) : Outcome * gmap string StoredOTP :=
  match store !! key with
  | None => (NotFound, store)
  | Some stored =>
      if expires stored <? now then (Expired, delete key store)
      else if negb (bool_decide (submitted = Some (otp stored))) then (Mismatch, store)
      else (Valid, delete key store)
  end.

Inductive Phase := Anonymous | PendingSecondFactor | AuthenticatedPhase.

(** The phase the guards of the source see: [requireAuth] and the GET
    routes test [req.session.authenticated]; [/verify-otp] goes on only
    with [pendingAuth] and [otpKey] both set. *)
Definition currentPhase (s : Session) : Phase :=
  if authenticated s then AuthenticatedPhase
  else if bool_decide (is_Some (pendingAuth s)) && truthy (otpKey s)
  then PendingSecondFactor
  else Anonymous.

(** The session of a client that waits for its code under [key]. *)
Definition pending_on (key : string) (s : Session) : Prop :=
  is_Some (pendingAuth s) ∧ otpKey s = Some key ∧ key ≠ "".

(** ** Concrete states: scenario D of the specification *)

Definition store_D : gmap string StoredOTP :=
  {[ "testuser_0" := {| otp := "7421"; expires := 60000; username := "testuser" |} ]}.

Definition session_D : Session :=
  {| pendingAuth := Some {| pending_username := "testuser"; timestamp := 0 |};
     otpKey := Some "testuser_0"; authenticated := false;
     session_username := None; loginTime := None |}.

(** ** The specification's expiry property, in its own words

    "If [consume] returns [Valid] at time t, then t < expiresAt; if called
    at t >= expiresAt, it returns [Expired] regardless of code
    correctness", for a record [stored] under [key]. *)
Definition expiry_as_stated : Prop :=
  ∀ (now : Z) (key : string) (submitted : option string)
    (store : gmap string StoredOTP) (stored : StoredOTP),
    store !! key = Some stored →
    ((consume now key submitted store).1 = Valid → now < expires stored)
    ∧ (expires stored ≤ now → (consume now key submitted store).1 = Expired).

(** ** The specification's guard, in its own words

    "username non-empty, length < 20; password non-empty and exactly 4
    digits". *)
Fixpoint all_digits (s : string) : bool :=
  match s with
  | EmptyString => true
  | String c rest => is_digit c && all_digits rest
  end.

Definition credential_guard (body_username body_password : option string) : bool :=
  match body_username, body_password with
  | Some user, Some password =>
      negb (String.eqb user "") && (String.length user <? 20)%nat
      && negb (String.eqb password "")
      && (String.length password =? 4)%nat && all_digits password
  | _, _ => false
  end.

(** The three validation errors of [/login]. *)
Definition validation_errors : list Response :=
  [ Render "login" (Some required_msg);
    Render "login" (Some too_long_msg);
    Render "login" (Some not_digits_msg) ].

(** The outside of scenario A: every clock reading is 0, the generated
    code is 7421, and the mail is sent or not. *)
Definition effects_A (sent : bool) : LoginEffects :=
  {| now_pending := 0; now_key := 0; now_expires := 0;
     generated := "7421"; delivered := sent |}.

(** A record the clean-up at [now] deletes: [now > value.expires]. *)
Definition stale (now : Z) (entry : string * StoredOTP) : Prop :=
  expires entry.2 < now.

Global Instance stale_dec now entry : Decision (stale now entry).
Proof. unfold stale. apply _. Defined.

(** Whether a string contains the separator of the key. *)
Fixpoint has_underscore (s : string) : bool :=
  match s with
  | EmptyString => false
  | String c rest => bool_decide (c = "_"%char) || has_underscore rest
  end.

(** ** The specification's uniqueness of keys, in its own words

    "Computes [attemptKey] unique for this call": any two calls of
    [issue], one after the other, get different keys, and the registry
    grows by one entry at the second. *)
Definition keys_unique_as_stated : Prop :=
  ∀ (user1 user2 : string) (key_now1 expires_now1 key_now2 expires_now2 : Z)
    (code1 code2 : string) (store : gmap string StoredOTP),
    let first := issue user1 key_now1 expires_now1 code1 store in
    let second := issue user2 key_now2 expires_now2 code2 first.2 in
    first.1 ≠ second.1 ∧ size second.2 = S (size first.2).

(** ** The operations on a session *)

(** The three operations a client has, with what each reads from the
    request and from the outside. *)
Inductive Operation :=
  | SubmitCredentials (body_username body_password : option string)
                      (e : LoginEffects)
  | SubmitCode (body_otp : option string) (now date : Z)
  | Logout.

Definition run (op : Operation) (s : Session) (store : gmap string StoredOTP)
    : Result :=
  match op with
  | SubmitCredentials body_username body_password e =>
      post_login body_username body_password e s store
  | SubmitCode body_otp now date => post_verify_otp body_otp now date s store
  | Logout => post_logout s store
  end.

(** The sessions a client can get to from a fresh one. The store is
    shared with the other clients and the timer, so each request may find
    any store. *)
Inductive reachable : Session → Prop :=
  | reachable_fresh : reachable fresh_session
  | reachable_step op s store :
      reachable s → reachable (session_after (run op s store)).

(** An operation is guarded in [s] when it is not a submission of
    credentials by an authenticated session. *)
Definition guarded (op : Operation) (s : Session) : Prop :=
  match op with
  | SubmitCredentials _ _ _ => authenticated s = false
  | SubmitCode _ _ _ | Logout => True
  end.

(** The same, with every step guarded. *)
Inductive reachable_guarded : Session → Prop :=
  | reachable_guarded_fresh : reachable_guarded fresh_session
  | reachable_guarded_step op s store :
      reachable_guarded s → guarded op s →
      reachable_guarded (session_after (run op s store)).

(** The invariant of the specification: "[pendingAttemptKey] is populated
    iff [phase == pendingSecondFactor]; [authenticatedUsername] is
    populated iff [phase == authenticated]". *)
Definition session_invariant (s : Session) : Prop :=
  (is_Some (otpKey s) ↔ currentPhase s = PendingSecondFactor)
  ∧ (is_Some (session_username s) ↔ currentPhase s = AuthenticatedPhase).

(** Both an authenticated username and a pending key. *)
Definition both_populated (s : Session) : Prop :=
  is_Some (session_username s) ∧ is_Some (otpKey s).

(** The claim on the reachable sessions, in the specification's words. *)
Definition invariant_as_stated : Prop :=
  ∀ s, reachable s → session_invariant s ∧ ¬ both_populated s.

(** What the handlers keep in every case: the key and the pending
    username are set and cleared together, a key that is set is not
    empty, and the username is set exactly with the flag. *)
Definition fields_paired (s : Session) : Prop :=
  (is_Some (otpKey s) ↔ is_Some (pendingAuth s))
  ∧ (is_Some (otpKey s) → truthy (otpKey s) = true)
  ∧ (is_Some (session_username s) ↔ authenticated s = true).

(** Scenario A, D and then a second submission of credentials by the
    session that was just authenticated. *)
Definition session_authenticated : Session :=
  session_after (run (SubmitCode (Some "7421") 59000 59000) session_D store_D).

Definition session_relogin : Session :=
  session_after
    (run (SubmitCredentials (Some "testuser") (Some "1234")
            {| now_pending := 70000; now_key := 70000; now_expires := 70000;
               generated := "1111"; delivered := true |})
         session_authenticated ∅).

(** ** Start-up: the environment and the configuration *)

(** [process.env] is a map from names to strings; [!process.env[key]]
    holds for a name that is unset or set to the empty string. *)
Definition required_vars : list string :=
  [ "EMAIL_USER"; "EMAIL_PASS"; "SESSION_SECRET"; "TEST_EMAIL" ].

Definition missing_vars (env : gmap string string) : list string :=
  List.filter (λ key, negb (truthy (env !! key))) required_vars.

(** [validateEnvVars()]: with a missing name the process exits with
    status 1 (after reporting the names), otherwise start-up goes on. *)
Inductive Startup :=
  | Exit (status : Z) (reported : list string)
  | Continue.

Definition validateEnvVars (env : gmap string string) : Startup :=
  let missing := missing_vars env in
  if (0 <? length missing)%nat then Exit 1 missing else Continue.

(** [process.env.PORT || 3000]: the string of the environment, or the
    number 3000. *)
Inductive Port :=
  | PortString (text : string)
  | PortNumber (n : Z).

(** The [config] object. A field read from [process.env] is an
    [option string]. *)
Record Config := mkConfig {
  server_port : Port;
  server_nodeEnv : string;
  email_user : option string;
  email_pass : option string;
  email_testEmail : option string;
  session_secret : option string;
  session_secure : bool
}.

Definition config (env : gmap string string) : Config :=
  {| server_port :=
       if truthy (env !! "PORT") then PortString (default "" (env !! "PORT"))
       else PortNumber 3000;
     server_nodeEnv :=
       if truthy (env !! "NODE_ENV") then default "" (env !! "NODE_ENV")
       else "development";
     email_user := env !! "EMAIL_USER";
     email_pass := env !! "EMAIL_PASS";
     email_testEmail := env !! "TEST_EMAIL";
     session_secret := env !! "SESSION_SECRET";
     session_secure := bool_decide (env !! "NODE_ENV" = Some "production") |}.

(** ** The GET routes *)

(** What a GET route answers: a page with its [error] local, the
    dashboard with its [username] and [loginTime] locals, or a redirect.
    The GET routes write nothing to the session. *)
Inductive Page :=
  | PageRender (view : string) (error : option string)
  | PageDashboard (shown_username : option string) (shown_loginTime : option Z)
  | PageRedirect (path : string).

(** The middleware [requireAuth]: [next] is what the route behind it
    answers. *)
Definition requireAuth (s : Session) (next : Page) : Page :=
  if authenticated s then next else PageRedirect "/login".

Definition get_root (s : Session) : Page :=
  if authenticated s then PageRedirect "/dashboard" else PageRedirect "/login".

Definition get_login (s : Session) : Page :=
  if authenticated s then PageRedirect "/dashboard"
  else PageRender "login" None.

Definition get_verify_otp (s : Session) : Page :=
  match pendingAuth s with
  | None => PageRedirect "/login"
  | Some _ => PageRender "verify-otp" None
  end.

Definition get_dashboard (s : Session) : Page :=
  requireAuth s (PageDashboard (session_username s) (loginTime s)).

(** The four GET routes of the application; any other path is not one of
    them. *)
Definition get (path : string) (s : Session) : option Page :=
  if String.eqb path "/" then Some (get_root s)
  else if String.eqb path "/login" then Some (get_login s)
  else if String.eqb path "/verify-otp" then Some (get_verify_otp s)
  else if String.eqb path "/dashboard" then Some (get_dashboard s)
  else None.

(** A client that follows redirects with GET requests, at most [hops]
    requests: the page it ends on, if it gets to one. *)
Fixpoint follow (hops : nat) (path : string) (s : Session) : option Page :=
  match hops with
  | O => None
  | S hops' =>
      match get path s with
      | Some (PageRedirect next) => follow hops' next s
      | answer => answer
      end
  end.

Definition is_page (p : Page) : bool :=
  match p with
  | PageRedirect _ => false
  | PageRender _ _ | PageDashboard _ _ => true
  end.

(** ** Well-formed stores and sessions *)

(** [key] is a key [/login] makes for [user]. *)
Definition key_of (user key : string) : Prop :=
  ∃ now : Z, key = make_otpKey user now.

(** Every record is stored under a key made for its own username, and
    that username passed the guard of [/login]. *)
Definition store_wf (store : gmap string StoredOTP) : Prop :=
  ∀ key v, store !! key = Some v →
    key_of (username v) key
    ∧ username v ≠ ""
    ∧ (String.length (username v) < 20)%nat.


(** An authenticated session has a username and a login time. *)
Definition auth_complete (s : Session) : Prop :=
  authenticated s = true →
  is_Some (session_username s) ∧ is_Some (loginTime s).

(** A store with a record for another user, for the examples. *)
Definition store_two : gmap string StoredOTP :=
  <[ "alice_5" := {| otp := "4242"; expires := 60005; username := "alice" |} ]>
    store_D.

(** ** [/login] on body fields of any kind

    [express.json()] and [express.urlencoded({ extended: true })] hand the
    handler whatever the request encodes: a field of [req.body] may be a
    string, but also an array, a number, a boolean, [null] or an object.
    [Body.post_login] is the handler on such fields. It is written over
    what the handler computes on a field, so that it covers every kind of
    value; [JsValue] further down is a concrete type of values for the
    examples. *)
Module Body.

(** What [/login] computes on a field [v] of the body:
    - [falsy v] is [!v];
    - [length_ge_20 v] is [v.length >= 20], [None] when evaluating it
      throws;
    - [to_string v] is the conversion to a string that the regular
      expression's [test] and the template literal of the key apply,
      [None] when it throws (an object whose [toString] is not callable);
    - [undefined] is a field the body does not carry and [text s] the
      string [s], with what JavaScript computes on them. *)
Class Value (V : Type) := mkValue {
  undefined : V;
  text : string → V;
  falsy : V → bool;
  length_ge_20 : V → option bool;
  to_string : V → option string;
  falsy_undefined : falsy undefined = true;
  falsy_text s : falsy (text s) = String.eqb s "";
  length_ge_20_text s :
    length_ge_20 (text s) = Some (20 <=? String.length s)%nat;
  to_string_text s : to_string (text s) = Some s
}.

(** The field of a form that carries it as text, or not at all. *)
Definition field {V : Type} `{Value V} (v : option string) : V :=
  match v with
  | Some s => text s
  | None => undefined
  end.

(** The records of the store and of the session, with the username as
    the handler got it. *)
Record StoredOTP (V : Type) := mkStoredOTP {
  otp : string;
  expires : Z;
  username : V
}.
Arguments mkStoredOTP {V}.
Arguments otp {V}.
Arguments expires {V}.
Arguments username {V}.

Record PendingAuth (V : Type) := mkPendingAuth {
  pending_username : V;
  timestamp : Z
}.
Arguments mkPendingAuth {V}.
Arguments pending_username {V}.
Arguments timestamp {V}.

Record Session (V : Type) := mkSession {
  pendingAuth : option (PendingAuth V);
  otpKey : option string;
  authenticated : bool;
  session_username : option V;
  loginTime : option Z
}.
Arguments mkSession {V}.
Arguments pendingAuth {V}.
Arguments otpKey {V}.
Arguments authenticated {V}.
Arguments session_username {V}.
Arguments loginTime {V}.

(** What the client gets: the answer of the handler, or the error page
    of the framework when the handler threw. *)
Inductive Answer :=
  | Sent (r : Response)
  | Thrown.

Record Result (V : Type) := mkResult {
  answer : Answer;
  session_after : Session V;
  store_after : gmap string (StoredOTP V)
}.
Arguments mkResult {V}.
Arguments answer {V}.
Arguments session_after {V}.
Arguments store_after {V}.

(** The handler, statement by statement. A throw ends the request with
    what was written so far: nothing when it comes from the guard, the
    pending username when it comes from the template literal of the
    key. *)
Definition post_login {V : Type} `{Value V} (body_username body_password : V)
    (e : LoginEffects) (s : Session V) (store : gmap string (StoredOTP V))
    : Result V :=
  if falsy body_username || falsy body_password then
    mkResult (Sent (Render "login" (Some required_msg))) s store
  else
    match length_ge_20 body_username with
    | None => mkResult Thrown s store
    | Some true => mkResult (Sent (Render "login" (Some too_long_msg))) s store
    | Some false =>
        match to_string body_password with
        | None => mkResult Thrown s store
        | Some password_text =>
            if negb (test_four_digits password_text) then
              mkResult (Sent (Render "login" (Some not_digits_msg))) s store
            else
              let s1 :=
                {| pendingAuth :=
                     Some {| pending_username := body_username;
                             timestamp := now_pending e |};
                   otpKey := otpKey s;
                   authenticated := authenticated s;
                   session_username := session_username s;
                   loginTime := loginTime s |} in
              match to_string body_username with
              | None => mkResult Thrown s1 store
              | Some username_text =>
                  let key := make_otpKey username_text (now_key e) in
                  let store' :=
                    <[ key := {| otp := generated e;
                                 expires := now_expires e + 60000;
                                 username := body_username |} ]> store in
                  let s2 :=
                    {| pendingAuth := pendingAuth s1;
                       otpKey := Some key;
                       authenticated := authenticated s;
                       session_username := session_username s;
                       loginTime := loginTime s |} in
                  if delivered e then
                    mkResult (Sent (Redirect "/verify-otp")) s2 store'
                  else
                    mkResult (Sent (Render "login" (Some send_failed_msg)))
                             s2 store'
              end
        end
    end.

End Body.

(** The three validation errors, as answers. *)
Definition validation_answers : list Body.Answer :=
  Body.Sent <$> validation_errors.

(** A session and a store of text usernames, seen as a session and a
    store of values. *)
Definition session_of_text {V : Type} `{Body.Value V} (s : Session)
    : Body.Session V :=
  {| Body.pendingAuth :=
       (λ p, {| Body.pending_username := Body.text (pending_username p);
                Body.timestamp := timestamp p |}) <$> pendingAuth s;
     Body.otpKey := otpKey s;
     Body.authenticated := authenticated s;
     Body.session_username := Body.text <$> session_username s;
     Body.loginTime := loginTime s |}.

Definition store_of_text {V : Type} `{Body.Value V}
    (store : gmap string StoredOTP) : gmap string (Body.StoredOTP V) :=
  (λ v, {| Body.otp := otp v; Body.expires := expires v;
           Body.username := Body.text (username v) |}) <$> store.

Definition result_of_text {V : Type} `{Body.Value V} (r : Result)
    : Body.Result V :=
  {| Body.answer := Body.Sent (response r);
     Body.session_after := session_of_text (session_after r);
     Body.store_after := store_of_text (store_after r) |}.

(** ** Concrete values: what a JSON or form body can carry

    Numbers are the integers (below 10^21 in size, which JavaScript
    prints in plain decimal); objects are left out. *)
#[warnings="-register-all"]
Inductive JsValue :=
  | JUndefined
  | JNull
  | JBool (b : bool)
  | JNumber (n : Z)
  | JString (s : string)
  | JArray (items : list JsValue).

Definition js_falsy (v : JsValue) : bool :=
  match v with
  | JUndefined | JNull => true
  | JBool b => negb b
  | JNumber n => n =? 0
  | JString s => String.eqb s ""
  | JArray _ => false
  end.

(** [v.length >= 20]: reading a property of [undefined] or [null] throws;
    a boolean and a number have no [length], and [undefined >= 20] is
    false; an array has the number of its elements. *)
Definition js_length_ge_20 (v : JsValue) : option bool :=
  match v with
  | JUndefined | JNull => None
  | JBool _ | JNumber _ => Some false
  | JString s => Some (20 <=? String.length s)%nat
  | JArray items => Some (20 <=? length items)%nat
  end.

(** The conversion to a string; an array is its elements joined by
    commas, [null] and [undefined] elements counting as empty. *)
Fixpoint js_to_string (v : JsValue) : string :=
  match v with
  | JUndefined => "undefined"
  | JNull => "null"
  | JBool true => "true"
  | JBool false => "false"
  | JNumber n => pretty n
  | JString s => s
  | JArray items =>
      (fix join (l : list JsValue) : string :=
         match l with
         | [] => ""
         | x :: rest =>
             let element :=
               match x with
               | JUndefined | JNull => ""
               | _ => js_to_string x
               end in
             match rest with
             | [] => element
             | _ :: _ => element +:+ "," +:+ join rest
             end
         end) items
  end.

Global Instance js_value : Body.Value JsValue :=
  {| Body.undefined := JUndefined;
     Body.text := JString;
     Body.falsy := js_falsy;
     Body.length_ge_20 := js_length_ge_20;
     Body.to_string := λ v, Some (js_to_string v);
     Body.falsy_undefined := eq_refl;
     Body.falsy_text := λ s, eq_refl;
     Body.length_ge_20_text := λ s, eq_refl;
     Body.to_string_text := λ s, eq_refl |}.

(** The guard as the specification states it, on values: the username
    is a text of 1 to 19 characters and the password a text of exactly
    four digits. *)
Definition guard_as_stated (body_username body_password : JsValue) : bool :=
  match body_username, body_password with
  | JString user, JString password =>
      credential_guard (Some user) (Some password)
  | _, _ => false
  end.

(** "The guard accepts exactly" those submissions: [/login] answers a
    validation error, and stores nothing, exactly when the stated guard
    fails. *)
Definition guard_exact_as_stated : Prop :=
  ∀ (body_username body_password : JsValue) (e : LoginEffects)
    (s : Body.Session JsValue) (store : gmap string (Body.StoredOTP JsValue)),
    guard_as_stated body_username body_password = false ↔
    (Body.answer (Body.post_login body_username body_password e s store)
       ∈ validation_answers
     ∧ Body.store_after (Body.post_login body_username body_password e s store)
       = store).

(** A name of 25 characters. *)
Definition long_name : string := "aaaaaaaaaaaaaaaaaaaaaaaaa".

Definition fresh_body_session : Body.Session JsValue :=
  {| Body.pendingAuth := None; Body.otpKey := None;
     Body.authenticated := false; Body.session_username := None;
     Body.loginTime := None |}.

(** Every record is stored under a key made for its own username. *)
Definition store_keyed (store : gmap string StoredOTP) : Prop :=
  ∀ key v, store !! key = Some v → key_of (username v) key.

(** The store the second login of [session_relogin] leaves. *)
Definition store_relogin : gmap string StoredOTP :=
  store_after
    (run (SubmitCredentials (Some "testuser") (Some "1234")
            {| now_pending := 70000; now_key := 70000; now_expires := 70000;
               generated := "1111"; delivered := true |})
         session_authenticated ∅).


(** * Properties *)

(** ** The store part of [/verify-otp] *)

Section Consume.
Context (now : Z) (key : string) (submitted : option string)
        (store : gmap string StoredOTP).

Lemma consume_not_found :
  store !! key = None → consume now key submitted store = (NotFound, store).
Proof. intros Hk. unfold consume. by rewrite Hk. Qed.

Lemma consume_expired stored :
  store !! key = Some stored → expires stored < now →
  consume now key submitted store = (Expired, delete key store).
Proof.
  intros Hk Hlt. unfold consume. rewrite Hk.
  by rewrite (proj2 (Z.ltb_lt _ _) Hlt).
Qed.

Lemma consume_mismatch stored :
  store !! key = Some stored → now ≤ expires stored →
  submitted ≠ Some (otp stored) →
  consume now key submitted store = (Mismatch, store).
Proof.
  intros Hk Hle Hne. unfold consume. rewrite Hk.
  rewrite (proj2 (Z.ltb_ge _ _) Hle).
  by rewrite bool_decide_eq_false_2.
Qed.

Lemma consume_valid stored :
  store !! key = Some stored → now ≤ expires stored →
  submitted = Some (otp stored) →
  consume now key submitted store = (Valid, delete key store).
Proof.
  intros Hk Hle Heq. unfold consume. rewrite Hk.
  rewrite (proj2 (Z.ltb_ge _ _) Hle).
  by rewrite bool_decide_eq_true_2.
Qed.

(** The four cases are the only ones, and each fixes the store. *)
Lemma consume_inv outcome store' :
  consume now key submitted store = (outcome, store') →
  match outcome with
  | NotFound => store !! key = None ∧ store' = store
  | Expired => (∃ stored, store !! key = Some stored ∧ expires stored < now)
               ∧ store' = delete key store
  | Mismatch => (∃ stored, store !! key = Some stored ∧ now ≤ expires stored
                           ∧ submitted ≠ Some (otp stored))
                ∧ store' = store
  | Valid => (∃ stored, store !! key = Some stored ∧ now ≤ expires stored
                        ∧ submitted = Some (otp stored))
             ∧ store' = delete key store
  end.
Proof.
  unfold consume. destruct (store !! key) as [stored|] eqn:Hk.
  - destruct (Z.ltb_spec (expires stored) now) as [Hlt|Hle].
    + intros [= <- <-]. eauto.
    + case_bool_decide as Hc; simpl; intros [= <- <-]; eauto 6.
  - intros [= <- <-]. done.
Qed.
End Consume.

Lemma truthy_Some_ne (k : string) : k ≠ "" → truthy (Some k) = true.
Proof.
  intros Hk. simpl. destruct (String.eqb_spec k ""); [done | reflexivity].
Qed.

(** [/verify-otp] of a waiting session does to the store what [consume]
    does, and answers and updates the session by the outcome. *)
Lemma post_verify_otp_consume body_otp now date s store key :
  pending_on key s →
  let r := post_verify_otp body_otp now date s store in
  store_after r = (consume now key body_otp store).2 ∧
  match (consume now key body_otp store).1 with
  | NotFound =>
      response r = Render "verify-otp" (Some not_found_msg) ∧ session_after r = s
  | Expired =>
      response r = Render "verify-otp" (Some expired_msg)
      ∧ session_after r = clear_pending s
  | Mismatch =>
      response r = Render "verify-otp" (Some invalid_msg) ∧ session_after r = s
  | Valid =>
      response r = Redirect "/dashboard"
      ∧ authenticated (session_after r) = true
      ∧ session_username (session_after r) = pending_username <$> pendingAuth s
      ∧ loginTime (session_after r) = Some date
      ∧ pendingAuth (session_after r) = None
      ∧ otpKey (session_after r) = None
  end.
Proof.
  intros ([pending Hp] & Hkey & Hne). simpl.
  unfold post_verify_otp, consume.
  rewrite Hp, Hkey, (truthy_Some_ne _ Hne). simpl.
  destruct (store !! key) as [stored|]; [|done].
  destruct (expires stored <? now); [done|].
  by case_bool_decide.
Qed.

(** A session that does not wait for a code is sent to [/login]; nothing
    changes. *)
Lemma post_verify_otp_not_pending body_otp now date s store :
  pendingAuth s = None ∨ otpKey s = None →
  post_verify_otp body_otp now date s store = mkResult (Redirect "/login") s store.
Proof.
  intros [Hp|Hk]; unfold post_verify_otp.
  - by rewrite Hp.
  - rewrite Hk. by destruct (pendingAuth s).
Qed.

(** ** Single use (C1) *)



(** The session that was authenticated by the first submission is no
    longer waiting: its second submission does not reach the store. *)
Lemma verify_twice_same_session body_otp now date otp2 now2 date2 s store key :
  pending_on key s →
  (consume now key body_otp store).1 = Valid →
  let r := post_verify_otp body_otp now date s store in
  post_verify_otp otp2 now2 date2 (session_after r) (store_after r)
  = mkResult (Redirect "/login") (session_after r) (store_after r).
Proof.
  intros Hs Hv r.
  pose proof (post_verify_otp_consume body_otp now date s store key Hs) as [_ H].
  rewrite Hv in H. apply post_verify_otp_not_pending. left. apply H.
Qed.

(** ** Expiry (C4) *)

(** The boundary: at [now = expires] the record is still good. *)
Lemma expiry_boundary_counterexample :
  store_D !! "testuser_0"
    = Some {| otp := "7421"; expires := 60000; username := "testuser" |}
  ∧ consume 60000 "testuser_0" (Some "7421") store_D = (Valid, ∅)
  ∧ ¬ expiry_as_stated.
Proof.
  assert (Hk : store_D !! "testuser_0"
    = Some {| otp := "7421"; expires := 60000; username := "testuser" |})
    by (vm_compute; reflexivity).
  assert (Hc : consume 60000 "testuser_0" (Some "7421") store_D = (Valid, ∅))
    by (vm_compute; reflexivity).
  split; [exact Hk | split; [exact Hc |]].
  intros H.
  destruct (H 60000 "testuser_0" (Some "7421") store_D _ Hk) as [Hlt _].
  rewrite Hc in Hlt. specialize (Hlt eq_refl). simpl in Hlt. lia.
Qed.

(** C4, as the code has it. If [consume] returns [Valid] at [now], the
    record of [key] has [now <= expires]; and at every [now > expires]
    [consume] returns [Expired] and deletes the record, whatever code
    was submitted. *)
Theorem consume_expiry (now : Z) (key : string) (submitted : option string)
    (store : gmap string StoredOTP) :
  (∀ store', consume now key submitted store = (Valid, store') →
     ∃ stored, store !! key = Some stored ∧ now ≤ expires stored)
  ∧ (∀ stored, store !! key = Some stored → expires stored < now →
       consume now key submitted store = (Expired, delete key store)
       ∧ delete key store !! key = None).
Proof.
  split.
  - intros store' Hv. apply consume_inv in Hv as [(stored & ? & ? & _) _]. eauto.
  - intros stored Hk Hlt. split; [by eapply consume_expired | apply lookup_delete_eq].
Qed.

Lemma consume_expiry_witness :
  (∃ stored, store_D !! "testuser_0" = Some stored ∧ 60000 ≤ expires stored)
  ∧ consume 61000 "testuser_0" (Some "7421") store_D = (Expired, ∅)
  ∧ consume 61000 "testuser_0" (Some "0000") store_D = (Expired, ∅).
Proof.
  assert (Hk : store_D !! "testuser_0"
    = Some {| otp := "7421"; expires := 60000; username := "testuser" |})
    by (vm_compute; reflexivity).
  assert (Hd : delete "testuser_0" store_D = ∅) by (vm_compute; reflexivity).
  assert (Hlt : expires {| otp := "7421"; expires := 60000; username := "testuser" |} < 61000)
    by (simpl; lia).
  split; [| split].
  - apply (proj1 (consume_expiry 60000 "testuser_0" (Some "7421") store_D) ∅).
    vm_compute. reflexivity.
  - rewrite <- Hd.
    exact (proj1 (proj2 (consume_expiry 61000 "testuser_0" (Some "7421") store_D) _ Hk Hlt)).
  - rewrite <- Hd.
    exact (proj1 (proj2 (consume_expiry 61000 "testuser_0" (Some "0000") store_D) _ Hk Hlt)).
Defined.

(** ** A wrong code (C6) *)



(** ** The guard of [/login] on text fields *)

Lemma test_four_digits_spec password :
  test_four_digits password
  = negb (String.eqb password "") && (String.length password =? 4)%nat
    && all_digits password.
Proof.
  destruct password as [|a [|b [|c [|d [|e rest]]]]]; simpl;
    rewrite ?andb_true_r, ?andb_false_r, ?andb_assoc; reflexivity.
Qed.

(** On text fields, the guard of [/login] accepts exactly the
    submissions with a non-empty username shorter than 20 and a password
    of exactly four digits. An accepted submission goes on to store a
    record; a rejected one is answered with a validation error on the
    login page and changes neither the session nor the store. *)
Theorem login_guard (body_username body_password : option string)
    (e : LoginEffects) (s : Session) (store : gmap string StoredOTP) :
  let r := post_login body_username body_password e s store in
  if credential_guard body_username body_password then
    ∃ user, body_username = Some user
      ∧ (response r ∉ validation_errors)
      ∧ otpKey (session_after r)
        = Some (issue user (now_key e) (now_expires e) (generated e) store).1
      ∧ store_after r
        = (issue user (now_key e) (now_expires e) (generated e) store).2
      ∧ is_Some (store_after r !! make_otpKey user (now_key e))
  else
    response r ∈ validation_errors
    ∧ session_after r = s
    ∧ store_after r = store.
Proof.
  intros r. subst r. unfold post_login, credential_guard.
  assert (Hreq : Render "login" (Some required_msg) ∈ validation_errors)
    by apply list_elem_of_here.
  destruct body_username as [user|]; [| done].
  destruct body_password as [password|]; [| done].
  unfold truthy. rewrite test_four_digits_spec, Nat.leb_antisym.
  destruct (String.eqb user ""); cbn [negb orb andb]; [done |].
  destruct (String.eqb password ""); cbn [negb orb andb].
  { by rewrite andb_false_r. }
  rewrite andb_true_r.
  destruct (String.length user <? 20)%nat; cbn [negb orb andb].
  2: { split; [| done]. apply list_elem_of_further, list_elem_of_here. }
  destruct ((String.length password =? 4)%nat && all_digits password);
    cbn [negb].
  2: { split; [| done]. do 2 apply list_elem_of_further. apply list_elem_of_here. }
  exists user. split; [done |].
  split.
  { unfold validation_errors.
    destruct (delivered e); cbn [response]; intros Hin;
      repeat (apply elem_of_cons in Hin as [Hin | Hin]; [discriminate |]);
      by apply elem_of_nil in Hin. }
  destruct (delivered e); cbn [session_after store_after otpKey issue fst snd];
    (split; [done | split; [done |]]); rewrite lookup_insert_eq; eauto.
Qed.

(** Scenario A: a well-formed submission stores one record and the
    session waits for the code. *)
Example scenario_A :
  post_login (Some "testuser") (Some "1234") (effects_A true) fresh_session ∅
  = mkResult (Redirect "/verify-otp") session_D store_D.
Proof. vm_compute. reflexivity. Qed.

(** Scenario B: a username of length 20 is rejected. *)
Example scenario_B :
  post_login (Some "aaaaaaaaaaaaaaaaaaaa") (Some "1234") (effects_A true)
             fresh_session ∅
  = mkResult (Render "login" (Some too_long_msg)) fresh_session ∅.
Proof. reflexivity. Qed.

(** Scenario C: a password with a letter is rejected. *)
Example scenario_C :
  post_login (Some "testuser") (Some "12a4") (effects_A true) fresh_session ∅
  = mkResult (Render "login" (Some not_digits_msg)) fresh_session ∅.
Proof. reflexivity. Qed.

(** ** Logout (C10) *)


(** The record of the abandoned attempt goes only with a later
    [consume] or with the clean-up: here it is still redeemable by a
    session that holds its key, and is gone after the clean-up at a time
    past its expiry. *)
Example logout_leaves_record :
  let r := post_logout session_D store_D in
  currentPhase session_D = PendingSecondFactor
  ∧ store_after r !! "testuser_0"
    = Some {| otp := "7421"; expires := 60000; username := "testuser" |}
  ∧ consume 30000 "testuser_0" (Some "7421") (store_after r) = (Valid, ∅)
  ∧ consume 61000 "testuser_0" (Some "7421") (store_after r) = (Expired, ∅)
  ∧ sweep 61000 (store_after r) = (∅, 1%nat).
Proof. vm_compute. repeat split. Qed.

(** ** The clean-up (C9) *)

Section Sweep.
Context (now : Z).

(** The loop, started from any store [m0] and any count [n], over the
    entries of [m]: an entry of [m0] goes exactly when [m] holds a
    stale record under its key. *)
Lemma sweep_fold_lookup (m0 : gmap string StoredOTP) (n : nat)
    (m : gmap string StoredOTP) :
  ∀ key,
    (map_fold (sweep_entry now) (m0, n) m).1 !! key
    = match m !! key with
      | Some v => if expires v <? now then None else m0 !! key
      | None => m0 !! key
      end.
Proof.
  apply (map_fold_weak_ind
           (λ r m, ∀ key, r.1 !! key
              = match m !! key with
                | Some v => if expires v <? now then None else m0 !! key
                | None => m0 !! key
                end)).
  - intros key. by rewrite lookup_empty.
  - intros i x m' r Hi IH key. unfold sweep_entry.
    destruct (decide (i = key)) as [->|Hne].
    + rewrite lookup_insert_eq.
      destruct (expires x <? now); simpl.
      * apply lookup_delete_eq.
      * by rewrite IH, Hi.
    + rewrite lookup_insert_ne by done.
      destruct (expires x <? now); simpl; [| apply IH].
      rewrite lookup_delete_ne by done. apply IH.
Qed.

(** The count is the number of stale records met. *)
Lemma sweep_fold_count (m0 : gmap string StoredOTP) (n : nat)
    (m : gmap string StoredOTP) :
  (map_fold (sweep_entry now) (m0, n) m).2
  = (n + size (filter (stale now) m))%nat.
Proof.
  apply (map_fold_weak_ind
           (λ r m, r.2 = (n + size (filter (stale now) m))%nat)).
  - rewrite map_filter_empty, map_size_empty. simpl. lia.
  - intros i x m' r Hi IH. unfold sweep_entry.
    destruct (Z.ltb_spec (expires x) now) as [Hlt|Hge]; simpl.
    + rewrite map_filter_insert_True by done.
      rewrite map_size_insert_None; [lia |].
      apply map_lookup_filter_None_2. by left.
    + rewrite map_filter_insert_False by (unfold stale; simpl; lia).
      by rewrite delete_id.
Qed.

Lemma sweep_lookup (store : gmap string StoredOTP) key :
  (sweep now store).1 !! key
  = match store !! key with
    | Some v => if expires v <? now then None else Some v
    | None => None
    end.
Proof.
  unfold sweep. rewrite sweep_fold_lookup.
  by destruct (store !! key).
Qed.

Lemma sweep_no_stale_left (store : gmap string StoredOTP) :
  filter (stale now) (sweep now store).1 = ∅.
Proof.
  apply map_empty_filter. intros key v Hv.
  rewrite sweep_lookup in Hv. unfold stale. simpl.
  destruct (store !! key) as [w|]; [| done].
  destruct (Z.ltb_spec (expires w) now); [done |].
  injection Hv as <-. lia.
Qed.
End Sweep.

(** C9. One run of the clean-up at [now] deletes exactly the records with
    [expires < now]: a record with [expires = now] (or later) is kept as
    it is, and the count is the number of records deleted. A second run
    at the same [now] deletes nothing. *)
Theorem sweep_exact_and_idempotent (now : Z) (store : gmap string StoredOTP) :
  (∀ key v, store !! key = Some v →
     (sweep now store).1 !! key = if bool_decide (expires v < now) then None else Some v)
  ∧ (∀ key, store !! key = None → (sweep now store).1 !! key = None)
  ∧ (sweep now store).1 = filter (λ entry, ¬ stale now entry) store
  ∧ (sweep now store).2 = size (filter (stale now) store)
  ∧ sweep now (sweep now store).1 = ((sweep now store).1, 0%nat).
Proof.
  split; [| split; [| split; [| split]]].
  - intros key v Hv. rewrite sweep_lookup, Hv.
    destruct (Z.ltb_spec (expires v) now).
    + by rewrite bool_decide_eq_true_2.
    + rewrite bool_decide_eq_false_2; [done | lia].
  - intros key Hk. by rewrite sweep_lookup, Hk.
  - apply map_eq. intros key. rewrite sweep_lookup, map_lookup_filter.
    destruct (store !! key) as [v|]; simpl; [| done].
    unfold stale. destruct (Z.ltb_spec (expires v) now).
    + rewrite option_guard_False; [done | simpl; lia].
    + rewrite option_guard_True; [done | simpl; lia].
  - unfold sweep. by rewrite sweep_fold_count.
  - apply injective_projections; cbn [fst snd].
    + apply map_eq. intros key. rewrite sweep_lookup.
      destruct ((sweep now store).1 !! key) as [v|] eqn:Hv; [| done].
      rewrite sweep_lookup in Hv.
      destruct (store !! key) as [w|]; [| done].
      destruct (expires w <? now) eqn:Hw; [done |].
      injection Hv as <-. by rewrite Hw.
    + unfold sweep at 1. rewrite sweep_fold_count, sweep_no_stale_left.
      by rewrite map_size_empty.
Qed.

(** A record that expires exactly at the time of the run survives it; one
    millisecond later it goes, and the second run finds nothing. *)
Example sweep_boundary :
  sweep 60000 store_D = (store_D, 0%nat)
  ∧ sweep 60001 store_D = (∅, 1%nat)
  ∧ sweep 60001 (sweep 60001 store_D).1 = (∅, 0%nat).
Proof. vm_compute. repeat split. Qed.

(** ** Keys (C8) *)

Section Keys.
(** The decimal numeral of an integer has no underscore. *)
Lemma pretty_N_char_not_underscore (x : N) : pretty_N_char x ≠ "_"%char.
Proof. unfold pretty_N_char. by repeat case_match. Qed.

Lemma has_underscore_pretty_N_go (x : N) : ∀ s,
  has_underscore (pretty_N_go x s) = has_underscore s.
Proof.
  induction (N.lt_wf_0 x) as [x _ IH]. intros s.
  destruct (decide (x = 0)%N) as [-> | Hx].
  - by rewrite pretty_N_go_0.
  - rewrite pretty_N_go_step by lia.
    rewrite IH by (apply N.div_lt; lia).
    simpl. rewrite bool_decide_eq_false_2; [done |].
    apply pretty_N_char_not_underscore.
Qed.

Lemma has_underscore_pretty_N (x : N) : has_underscore (pretty x) = false.
Proof.
  unfold pretty, pretty_N. case_decide; [done |].
  by rewrite has_underscore_pretty_N_go.
Qed.

Lemma has_underscore_pretty_Z (z : Z) : has_underscore (pretty z) = false.
Proof.
  destruct z as [| p | p]; [done | apply has_underscore_pretty_N |].
  unfold pretty, pretty_Z. simpl.
  apply (has_underscore_pretty_N (N.pos p)).
Qed.

Lemma has_underscore_app (a b : string) :
  has_underscore (a +:+ String "_" b) = true.
Proof.
  induction a as [| c a IH]; simpl; [done |].
  rewrite IH. apply orb_true_r.
Qed.

Lemma append_empty_l (s : string) : "" +:+ s = s.
Proof. reflexivity. Qed.

Lemma append_String_l (c : ascii) (a s : string) :
  String c a +:+ s = String c (a +:+ s).
Proof. reflexivity. Qed.

(** A key is cut in one way only at its last underscore. *)
Lemma key_split (a1 a2 b1 b2 : string) :
  has_underscore b1 = false → has_underscore b2 = false →
  a1 +:+ String "_" b1 = a2 +:+ String "_" b2 → a1 = a2 ∧ b1 = b2.
Proof.
  intros Hb1 Hb2. revert a2.
  induction a1 as [| c a1 IH]; intros [| c' a2];
    rewrite ?append_empty_l, ?append_String_l; intros Heq.
  - by injection Heq as ->.
  - injection Heq as <- ->. by rewrite has_underscore_app in Hb1.
  - injection Heq as -> <-. by rewrite has_underscore_app in Hb2.
  - injection Heq as -> Heq. destruct (IH _ Heq) as [-> ->]. done.
Qed.

Lemma make_otpKey_eq (user : string) (now : Z) :
  make_otpKey user now = user +:+ String "_" (pretty now).
Proof. reflexivity. Qed.

Lemma make_otpKey_inj (user1 user2 : string) (now1 now2 : Z) :
  make_otpKey user1 now1 = make_otpKey user2 now2 ↔
  user1 = user2 ∧ now1 = now2.
Proof.
  split; [| by intros [-> ->]].
  rewrite !make_otpKey_eq. intros Heq.
  apply key_split in Heq as [-> Hp]; try apply has_underscore_pretty_Z.
  split; [done |]. by apply (inj pretty).
Qed.

Lemma make_otpKey_nonempty (user : string) (now : Z) : make_otpKey user now ≠ "".
Proof. rewrite make_otpKey_eq. by destruct user. Qed.
End Keys.

(** Two submissions of the same username at the same reading of the
    clock get the same key: the second record replaces the first, and the
    store has one entry, not two. *)
Lemma same_millisecond_counterexample :
  (issue "testuser" 0 0 "7421" ∅).1 = "testuser_0"
  ∧ (issue "testuser" 0 0 "1111" (issue "testuser" 0 0 "7421" ∅).2).1 = "testuser_0"
  ∧ size (issue "testuser" 0 0 "7421" ∅).2 = 1%nat
  ∧ size (issue "testuser" 0 0 "1111" (issue "testuser" 0 0 "7421" ∅).2).2 = 1%nat
  ∧ (issue "testuser" 0 0 "1111" (issue "testuser" 0 0 "7421" ∅).2).2 !! "testuser_0"
    = Some {| otp := "1111"; expires := 60000; username := "testuser" |}
  ∧ ¬ keys_unique_as_stated.
Proof.
  split; [by vm_compute |]. split; [by vm_compute |].
  split; [by vm_compute |]. split; [by vm_compute |].
  split; [by vm_compute |].
  intros H.
  destruct (H "testuser" "testuser" 0 0 0 0 "7421" "1111" ∅) as [Hne _].
  by apply Hne.
Qed.

(** C8, as the code has it. The key of an [issue] call is the username,
    an underscore and the decimal reading of the clock: two calls get the
    same key exactly when they agree on the username and on the
    millisecond. At a key the store does not hold, the call adds one
    entry; at a key it holds, the call replaces the record and the number
    of entries stays. *)
Theorem issue_key_unique_per_user_and_millisecond
    (user1 user2 : string) (key_now1 expires_now1 key_now2 expires_now2 : Z)
    (code1 code2 : string) (store : gmap string StoredOTP) :
  let first := issue user1 key_now1 expires_now1 code1 store in
  let second := issue user2 key_now2 expires_now2 code2 first.2 in
  (first.1 = second.1 ↔ user1 = user2 ∧ key_now1 = key_now2)
  ∧ second.2 !! second.1
    = Some {| otp := code2; expires := expires_now2 + 60000; username := user2 |}
  ∧ (is_Some (first.2 !! second.1) ↔
       (user1 = user2 ∧ key_now1 = key_now2) ∨ is_Some (store !! second.1))
  ∧ size second.2
    = if bool_decide (is_Some (first.2 !! second.1))
      then size first.2 else S (size first.2).
Proof.
  cbn [issue fst snd].
  split; [apply make_otpKey_inj |].
  split; [apply lookup_insert_eq |].
  split.
  - rewrite lookup_insert. case_decide as Hk.
    + apply make_otpKey_inj in Hk. split; [by left | eauto].
    + rewrite make_otpKey_inj in Hk. split; [by right | by intros [? | ?]].
  - rewrite map_size_insert. case_bool_decide as Hin.
    + destruct Hin as [v Hv]. by rewrite Hv.
    + apply eq_None_not_Some in Hin. by rewrite Hin.
Qed.

(** Two clients that submit the same username at the same millisecond
    share one record: the code generated for the first is lost, and the
    code mailed for the second authenticates the first. *)
Example same_millisecond_logins :
  let r1 := post_login (Some "testuser") (Some "1234") (effects_A true)
              fresh_session ∅ in
  let r2 := post_login (Some "testuser") (Some "9999")
              {| now_pending := 0; now_key := 0; now_expires := 0;
                 generated := "1111"; delivered := true |}
              fresh_session (store_after r1) in
  otpKey (session_after r1) = otpKey (session_after r2)
  ∧ size (store_after r1) = 1%nat
  ∧ size (store_after r2) = 1%nat
  ∧ (consume 1000 "testuser_0" (Some "7421") (store_after r2)).1 = Mismatch
  ∧ response (post_verify_otp (Some "1111") 1000 1000 (session_after r1)
                (store_after r2)) = Redirect "/dashboard".
Proof. vm_compute. repeat split. Qed.

(** ** The session invariant *)

Section Invariant.
Lemma fresh_session_invariant : session_invariant fresh_session.
Proof. split; split; intros H; try discriminate; by destruct H. Qed.

Lemma fresh_session_paired : fields_paired fresh_session.
Proof.
  split; [| split]; try split; intros H; try discriminate; by destruct H.
Qed.

(** The shapes of the session a request can leave. *)
Lemma post_login_session body_username body_password e s store :
  let s' := session_after (post_login body_username body_password e s store) in
  s' = s
  ∨ ∃ user,
      s' = {| pendingAuth := Some {| pending_username := user;
                                     timestamp := now_pending e |};
              otpKey := Some (make_otpKey user (now_key e));
              authenticated := authenticated s;
              session_username := session_username s;
              loginTime := loginTime s |}.
Proof.
  unfold post_login.
  destruct body_username as [user|]; [| by left].
  destruct body_password as [password|]; [| by left].
  destruct (_ || _); [by left |].
  destruct (20 <=? String.length user)%nat; [by left |].
  destruct (negb _); [by left |].
  right. exists user. by destruct (delivered e).
Qed.

Lemma post_verify_otp_session body_otp now date s store :
  let s' := session_after (post_verify_otp body_otp now date s store) in
  s' = s
  ∨ s' = clear_pending s
  ∨ ∃ pending,
      pendingAuth s = Some pending
      ∧ s' = {| pendingAuth := None; otpKey := None; authenticated := true;
                session_username := Some (pending_username pending);
                loginTime := Some date |}.
Proof.
  unfold post_verify_otp.
  destruct (pendingAuth s) as [pending|]; [| by left].
  destruct (negb _); [by left |].
  destruct (store !! _) as [stored|]; [| by left].
  destruct (expires stored <? now); [by right; left |].
  destruct (negb _); [by left |].
  right; right. by exists pending.
Qed.

Lemma truthy_make_otpKey user now : truthy (Some (make_otpKey user now)) = true.
Proof. apply truthy_Some_ne, make_otpKey_nonempty. Qed.

Lemma fields_paired_step op s store :
  fields_paired s → fields_paired (session_after (run op s store)).
Proof.
  intros (Hkp & Hne & Hua).
  destruct op as [u p e | c now date |]; cbn [run].
  - destruct (post_login_session u p e s store) as [-> | [user ->]]; [done |].
    split; [| split]; cbn [otpKey pendingAuth session_username authenticated].
    + split; eauto.
    + intros _. apply truthy_make_otpKey.
    + done.
  - destruct (post_verify_otp_session c now date s store)
      as [-> | [-> | (pending & _ & ->)]]; [done | |].
    + split; [| split]; cbn; [| | done].
      * split; intros H; by destruct H.
      * intros H; by destruct H.
    + split; [| split]; cbn.
      * split; intros H; by destruct H.
      * intros H; by destruct H.
      * split; eauto.
  - apply fresh_session_paired.
Qed.

Lemma currentPhase_pending s :
  currentPhase s = PendingSecondFactor ↔
  authenticated s = false ∧ is_Some (pendingAuth s) ∧ truthy (otpKey s) = true.
Proof.
  unfold currentPhase. destruct (authenticated s).
  - split; [done | by intros [? _]].
  - destruct (pendingAuth s) as [pending|].
    + rewrite bool_decide_eq_true_2 by eauto. cbn [andb].
      destruct (truthy (otpKey s)); split; try done; eauto.
      by intros (_ & _ & ?).
    + rewrite bool_decide_eq_false_2 by by intros [? ?]. cbn [andb].
      split; [done |]. by intros (_ & [? ?] & _).
Qed.

Lemma currentPhase_authenticated s :
  currentPhase s = AuthenticatedPhase ↔ authenticated s = true.
Proof.
  unfold currentPhase. destruct (authenticated s); [done |].
  by destruct (_ && _).
Qed.

Lemma truthy_is_Some (v : option string) : truthy v = true → is_Some v.
Proof. destruct v; [eauto | done]. Qed.

(** The invariant, unfolded into the fields. *)
Lemma session_invariant_fields s :
  session_invariant s ↔
  (is_Some (otpKey s) →
     authenticated s = false ∧ is_Some (pendingAuth s) ∧ truthy (otpKey s) = true)
  ∧ (is_Some (session_username s) ↔ authenticated s = true).
Proof.
  unfold session_invariant.
  rewrite currentPhase_pending, currentPhase_authenticated.
  pose proof (truthy_is_Some (otpKey s)) as Hsome.
  split; intros [Hk Hu]; (split; [| exact Hu]).
  - intros Hkey. by apply Hk.
  - split; [exact Hk |]. intros (_ & _ & Ht). by apply Hsome.
Qed.

Lemma session_invariant_exclusive s :
  session_invariant s → ¬ both_populated s.
Proof.
  intros [Hk Hu] [Hname Hkey].
  apply Hk in Hkey. apply Hu in Hname. congruence.
Qed.

Lemma session_invariant_step op s store :
  session_invariant s → guarded op s →
  session_invariant (session_after (run op s store)).
Proof.
  intros Hinv Hg.
  destruct op as [u p e | c now date |]; cbn [run].
  - destruct (post_login_session u p e s store) as [-> | [user ->]]; [done |].
    cbn [guarded] in Hg.
    apply session_invariant_fields in Hinv as [_ Hu].
    apply session_invariant_fields.
    cbn [otpKey pendingAuth session_username authenticated].
    split; [| done]. intros _.
    split; [done | split; [eauto | apply truthy_make_otpKey]].
  - destruct (post_verify_otp_session c now date s store)
      as [-> | [-> | (pending & _ & ->)]]; [done | |];
      apply session_invariant_fields in Hinv as [_ Hu];
      apply session_invariant_fields; cbn.
    + split; [| done]. intros H; by destruct H.
    + split; [intros H; by destruct H |]. split; eauto.
  - apply fresh_session_invariant.
Qed.

Lemma reachable_paired s : reachable s → fields_paired s.
Proof.
  induction 1 as [| op s store _ IH];
    [apply fresh_session_paired | by apply fields_paired_step].
Qed.

Lemma reachable_guarded_invariant s :
  reachable_guarded s → session_invariant s.
Proof.
  induction 1 as [| op s store _ IH Hg];
    [apply fresh_session_invariant | by apply session_invariant_step].
Qed.

Lemma reachable_guarded_reachable s : reachable_guarded s → reachable s.
Proof. induction 1; by constructor. Qed.
End Invariant.

(** An authenticated session that submits credentials again holds an
    authenticated username and a pending key at once. *)
Lemma relogin_counterexample :
  reachable session_relogin
  ∧ session_username session_relogin = Some "testuser"
  ∧ otpKey session_relogin = Some "testuser_70000"
  ∧ currentPhase session_relogin = AuthenticatedPhase
  ∧ ¬ invariant_as_stated.
Proof.
  assert (Hr : reachable session_relogin).
  { unfold session_relogin, session_authenticated.
    apply reachable_step, reachable_step.
    change session_D with
      (session_after (run (SubmitCredentials (Some "testuser") (Some "1234")
                             (effects_A true)) fresh_session ∅)).
    apply reachable_step, reachable_fresh. }
  split; [exact Hr |].
  split; [by vm_compute |]. split; [by vm_compute |]. split; [by vm_compute |].
  intros H. destruct (H _ Hr) as [_ Hboth]. apply Hboth.
  split; vm_compute; eauto.
Qed.

(** Under guarded steps. [/verify-otp] and [/logout] in any session, and
    [/login] in a session that is not authenticated, preserve the
    invariant: the pending key is populated iff the phase is
    PendingSecondFactor, and the authenticated username iff the phase is
    Authenticated; so no session reached by such steps has both
    populated. Every operation preserves the pairing of the fields: the
    key is populated iff the pending username is, and the authenticated
    username iff the flag is set. *)
Theorem session_invariant_preserved :
  session_invariant fresh_session
  ∧ (∀ op s store, session_invariant s → guarded op s →
       session_invariant (session_after (run op s store)))
  ∧ (∀ s, reachable_guarded s → session_invariant s ∧ ¬ both_populated s)
  ∧ (∀ op s store, fields_paired s →
       fields_paired (session_after (run op s store)))
  ∧ (∀ s, reachable s → fields_paired s).
Proof.
  split; [apply fresh_session_invariant |].
  split; [apply session_invariant_step |].
  split.
  - intros s Hs. apply reachable_guarded_invariant in Hs.
    split; [done | by apply session_invariant_exclusive].
  - split; [apply fields_paired_step | apply reachable_paired].
Qed.

Lemma session_invariant_preserved_witness :
  session_invariant session_D
  ∧ session_invariant session_authenticated
  ∧ fields_paired session_relogin.
Proof.
  destruct session_invariant_preserved as (Hfresh & Hstep & _ & Hpair & _).
  assert (HD : session_invariant session_D).
  { apply (Hstep (SubmitCredentials (Some "testuser") (Some "1234")
                    (effects_A true)) fresh_session ∅ Hfresh).
    reflexivity. }
  split; [exact HD |]. split.
  - apply (Hstep (SubmitCode (Some "7421") 59000 59000) session_D store_D HD I).
  - unfold session_relogin, session_authenticated.
    apply Hpair, Hpair.
    apply (Hpair (SubmitCredentials (Some "testuser") (Some "1234")
                    (effects_A true)) fresh_session ∅).
    apply fresh_session_paired.
Defined.

(** ** Failed delivery (C2) *)

(** What [/login] leaves does not depend on the delivery: the pending
    state set before the mail is sent is still there when sending
    failed. *)
Lemma post_login_delivery_irrelevant body_username body_password e s store :
  let e' := {| now_pending := now_pending e; now_key := now_key e;
               now_expires := now_expires e; generated := generated e;
               delivered := negb (delivered e) |} in
  session_after (post_login body_username body_password e s store)
  = session_after (post_login body_username body_password e' s store)
  ∧ store_after (post_login body_username body_password e s store)
    = store_after (post_login body_username body_password e' s store).
Proof.
  intros e'. subst e'. unfold post_login.
  cbn [now_pending now_key now_expires generated delivered].
  destruct body_username as [user|]; [| by split].
  destruct body_password as [password|]; [| by split].
  destruct (_ || _); [by split |].
  destruct (20 <=? String.length user)%nat; [by split |].
  destruct (negb (test_four_digits password)); [by split |].
  by destruct (delivered e).
Qed.

(** C2 on the code: after a failed delivery the session still waits for
    the code, the record is in the store, and the code that was never
    delivered authenticates the session. *)
Theorem delivery_failure_keeps_pending :
  let r := post_login (Some "testuser") (Some "1234") (effects_A false)
             fresh_session ∅ in
  response r = Render "login" (Some send_failed_msg)
  ∧ session_after r = session_D
  ∧ pendingAuth (session_after r)
    = Some {| pending_username := "testuser"; timestamp := 0 |}
  ∧ otpKey (session_after r) = Some "testuser_0"
  ∧ currentPhase (session_after r) = PendingSecondFactor
  ∧ store_after r = store_D
  ∧ response (post_verify_otp (Some "7421") 1000 1000 (session_after r)
                (store_after r)) = Redirect "/dashboard".
Proof. vm_compute. repeat split. Qed.

(** ** A key without a record (C3) *)

(** C3 on the code: when the store has no record under the session's key,
    [/verify-otp] answers "OTP not found or expired" and leaves the
    session as it was, still waiting; the expired branch, on the same
    session, clears the pending state. *)
Theorem not_found_keeps_pending :
  let not_found := post_verify_otp (Some "7421") 61000 61000 session_D ∅ in
  let expired := post_verify_otp (Some "7421") 61000 61000 session_D store_D in
  response not_found = Render "verify-otp" (Some not_found_msg)
  ∧ session_after not_found = session_D
  ∧ currentPhase (session_after not_found) = PendingSecondFactor
  ∧ response expired = Render "verify-otp" (Some expired_msg)
  ∧ session_after expired = fresh_session
  ∧ currentPhase (session_after expired) = Anonymous.
Proof. vm_compute. repeat split. Qed.

(** The same for every session that waits on a key the store does not
    hold. *)
Lemma not_found_session_unchanged body_otp now date s store key :
  pending_on key s → store !! key = None →
  post_verify_otp body_otp now date s store
  = mkResult (Render "verify-otp" (Some not_found_msg)) s store.
Proof.
  intros Hs Hk.
  pose proof (post_verify_otp_consume body_otp now date s store key Hs) as H.
  simpl in H. rewrite (consume_not_found _ _ _ _ Hk) in H. simpl in H.
  destruct H as (Hst & Hr & Hse).
  destruct (post_verify_otp _ _ _ _ _); simpl in *; by subst.
Qed.

(** * Further properties of the handlers *)

(** ** The cases of [/login] *)

Lemma credential_guard_true user password :
  credential_guard (Some user) (Some password) = true →
  user ≠ "" ∧ (String.length user < 20)%nat ∧ test_four_digits password = true
  ∧ truthy (Some user) = true ∧ truthy (Some password) = true.
Proof.
  unfold credential_guard. rewrite !andb_true_iff.
  intros ((((Hu & Hlen) & Hp) & Hfour) & Hd).
  assert (Hne : user ≠ "").
  { intros ->. discriminate. }
  split; [exact Hne |].
  split; [by apply Nat.ltb_lt |].
  split; [| by split].
  by rewrite test_four_digits_spec, Hp, Hfour, Hd.
Qed.

(** An accepted submission: the answer depends on the delivery, the
    session and the store do not. *)
Lemma post_login_accepted user password e s store :
  credential_guard (Some user) (Some password) = true →
  post_login (Some user) (Some password) e s store
  = mkResult
      (if delivered e then Redirect "/verify-otp"
       else Render "login" (Some send_failed_msg))
      {| pendingAuth := Some {| pending_username := user;
                                timestamp := now_pending e |};
         otpKey := Some (make_otpKey user (now_key e));
         authenticated := authenticated s;
         session_username := session_username s;
         loginTime := loginTime s |}
      (<[ make_otpKey user (now_key e) :=
            {| otp := generated e; expires := now_expires e + 60000;
               username := user |} ]> store).
Proof.
  intros (Hu & Hlen & Hd & Htu & Htp)%credential_guard_true.
  unfold post_login. rewrite Htu, Htp, Hd. cbn [negb orb].
  rewrite (proj2 (Nat.leb_gt _ _) Hlen).
  by destruct (delivered e).
Qed.

(** Every submission is either turned down with nothing changed, or
    accepted for a username that passed the guard. *)
Lemma post_login_cases body_username body_password e s store :
  (session_after (post_login body_username body_password e s store) = s
   ∧ store_after (post_login body_username body_password e s store) = store)
  ∨ ∃ user password,
      body_username = Some user ∧ body_password = Some password
      ∧ credential_guard (Some user) (Some password) = true.
Proof.
  destruct body_username as [user|]; [| by left].
  destruct body_password as [password|]; [| by left].
  destruct (credential_guard (Some user) (Some password)) eqn:Hg.
  { right. by exists user, password. }
  left. revert Hg. unfold credential_guard, post_login, truthy.
  rewrite test_four_digits_spec, Nat.leb_antisym.
  destruct (String.eqb user ""); cbn [negb orb andb]; [done |].
  destruct (String.eqb password ""); cbn [negb orb andb]; [done |].
  destruct (String.length user <? 20)%nat; cbn [negb andb]; [| done].
  by intros ->.
Qed.

(** ** Who gets authenticated, and how (X1 to X3) *)






(** A wrong code in an authenticated session with a pending login leaves
    the username and the login time as they were. *)
Example authenticated_wrong_code :
  run (SubmitCode (Some "0000") 80000 80000) session_relogin store_relogin
  = mkResult (Render "verify-otp" (Some invalid_msg)) session_relogin store_relogin.
Proof. vm_compute. reflexivity. Qed.

(** X3. Login and verification compose: after an accepted [/login],
    whether the mail was sent or not and whatever the session and the
    store were, a [/verify-otp] with the generated code at a time not
    after [expires] redirects to the dashboard, authenticates the session
    as the submitted username with the given login time, clears the
    pending state, and leaves the store without the record. *)
Theorem login_then_verify (user password : string) (e : LoginEffects)
    (now date : Z) (s : Session) (store : gmap string StoredOTP) :
  credential_guard (Some user) (Some password) = true →
  now ≤ now_expires e + 60000 →
  let r1 := post_login (Some user) (Some password) e s store in
  let r2 := post_verify_otp (Some (generated e)) now date
              (session_after r1) (store_after r1) in
  r2 = mkResult (Redirect "/dashboard")
         {| pendingAuth := None; otpKey := None; authenticated := true;
            session_username := Some user; loginTime := Some date |}
         (delete (make_otpKey user (now_key e)) store).
Proof.
  intros Hg Hnow. cbv zeta.
  rewrite (post_login_accepted _ _ _ _ _ Hg). cbn [session_after store_after].
  unfold post_verify_otp. cbn [pendingAuth otpKey].
  rewrite truthy_make_otpKey. cbn [negb default].
  rewrite lookup_insert_eq. cbn [expires otp pending_username].
  rewrite (proj2 (Z.ltb_ge _ _) Hnow).
  rewrite bool_decide_eq_true_2 by done. cbn [negb].
  by rewrite delete_insert_eq.
Qed.

Lemma login_then_verify_witness :
  post_verify_otp (Some "7421") 60000 60000
    (session_after (post_login (Some "testuser") (Some "1234") (effects_A false)
                      fresh_session ∅))
    (store_after (post_login (Some "testuser") (Some "1234") (effects_A false)
                    fresh_session ∅))
  = mkResult (Redirect "/dashboard")
      {| pendingAuth := None; otpKey := None; authenticated := true;
         session_username := Some "testuser"; loginTime := Some 60000 |}
      (delete (make_otpKey "testuser" 0) ∅).
Proof.
  apply (login_then_verify "testuser" "1234" (effects_A false) 60000 60000
           fresh_session ∅).
  - reflexivity.
  - simpl. lia.
Defined.

(** ** What a request does to the store (X4) *)

(** X4. A request touches at most one record of the store: every key
    keeps its record, except that a [/verify-otp] may delete the record
    under the key the session held, and a [/login] may set the record
    under the key the session holds afterwards. [/logout] touches none. *)
Theorem request_touches_own_key (op : Operation) (s : Session)
    (store : gmap string StoredOTP) (key : string) :
  let r := run op s store in
  store_after r !! key = store !! key
  ∨ (otpKey s = Some key
     ∧ (∃ c now date, op = SubmitCode c now date)
     ∧ is_Some (store !! key) ∧ store_after r !! key = None)
  ∨ (otpKey (session_after r) = Some key
     ∧ (∃ u p e, op = SubmitCredentials u p e)
     ∧ is_Some (store_after r !! key)).
Proof.
  cbv zeta. destruct op as [u p e | c now date |]; cbn [run].
  - destruct (post_login_cases u p e s store)
      as [[_ ->] | (user & password & -> & -> & Hg)]; [by left |].
    rewrite (post_login_accepted _ _ _ _ _ Hg). cbn [session_after store_after otpKey].
    destruct (decide (make_otpKey user (now_key e) = key)) as [<- | Hne].
    + right; right. rewrite lookup_insert_eq. eauto 10.
    + left. by rewrite lookup_insert_ne.
  - unfold post_verify_otp.
    destruct (pendingAuth s) as [pending|]; [| by left].
    destruct (otpKey s) as [k|] eqn:Hk; cbn; [| by left].
    destruct (String.eqb k ""); cbn; [by left |].
    destruct (store !! k) as [stored|] eqn:Hs; [| by left].
    assert (Hdel : delete k store !! key = store !! key
                   ∨ Some k = Some key ∧ (∃ c0 now0 date0,
                       SubmitCode c now date = SubmitCode c0 now0 date0)
                     ∧ is_Some (store !! key) ∧ delete k store !! key = None).
    { destruct (decide (k = key)) as [<- | Hne].
      - right. rewrite lookup_delete_eq, Hs. eauto 10.
      - left. by rewrite lookup_delete_ne. }
    destruct (expires stored <? now); cbn.
    { destruct Hdel; [by left | by right; left]. }
    case_bool_decide; cbn; [| by left].
    destruct Hdel; [by left | by right; left].
  - by left.
Qed.

(** ** Keys belong to usernames (X5, X6) *)





Lemma store_wf_sweep now store : store_wf store → store_wf (sweep now store).1.
Proof.
  intros Hwf k v Hk. rewrite sweep_lookup in Hk.
  destruct (store !! k) as [w|] eqn:Hw; [| done].
  destruct (expires w <? now); [done |]. injection Hk as <-. by apply Hwf.
Qed.



Lemma store_wf_keyed store : store_wf store → store_keyed store.
Proof. intros Hwf key v Hk. by apply Hwf. Qed.









(** ** More on the clean-up (X7 to X9) *)

Lemma sweep_filter now (store : gmap string StoredOTP) :
  (sweep now store).1 = filter (λ entry, ¬ stale now entry) store.
Proof.
  apply map_eq. intros key. rewrite sweep_lookup, map_lookup_filter.
  destruct (store !! key) as [v|]; simpl; [| done].
  unfold stale. destruct (Z.ltb_spec (expires v) now).
  - rewrite option_guard_False; [done | simpl; lia].
  - rewrite option_guard_True; [done | simpl; lia].
Qed.

Lemma sweep_count now (store : gmap string StoredOTP) :
  (sweep now store).2 = size (filter (stale now) store).
Proof. unfold sweep. by rewrite sweep_fold_count. Qed.

Lemma sweep_size now (store : gmap string StoredOTP) :
  (size (sweep now store).1 + (sweep now store).2 = size store)%nat.
Proof.
  rewrite sweep_filter, sweep_count.
  rewrite <- (map_filter_union_complement (stale now) store) at 3.
  rewrite map_size_disj_union by apply map_disjoint_filter_complement.
  lia.
Qed.

Lemma sweep_delete now key (store : gmap string StoredOTP) :
  (sweep now (delete key store)).1 = delete key (sweep now store).1.
Proof.
  apply map_eq. intros k. rewrite sweep_lookup.
  destruct (decide (key = k)) as [-> | Hne].
  - by rewrite !lookup_delete_eq.
  - by rewrite !lookup_delete_ne, sweep_lookup.
Qed.

(** X7. The clean-up only removes: what it returns is a part of the
    store it was given, every record it keeps is unchanged, and the count
    it reports is exactly the number of entries the store lost. *)
Theorem sweep_only_removes (now : Z) (store : gmap string StoredOTP) :
  (sweep now store).1 ⊆ store
  ∧ (size (sweep now store).1 + (sweep now store).2 = size store)%nat
  ∧ ((sweep now store).2 = 0%nat ↔ (sweep now store).1 = store).
Proof.
  assert (Hsub : (sweep now store).1 ⊆ store).
  { rewrite sweep_filter. apply map_filter_subseteq. }
  pose proof (sweep_size now store) as Hsize.
  split; [done |]. split; [done |]. split.
  - intros H0. apply map_subseteq_size_eq; [done | lia].
  - intros Heq. rewrite Heq in Hsize at 1. lia.
Qed.

(** X8. A later run subsumes an earlier one: cleaning at [now1] and then
    at [now2 >= now1] leaves the store that one run at [now2] leaves, and
    the two counts add up to the count of that one run. *)
Theorem sweep_later_subsumes (now1 now2 : Z) (store : gmap string StoredOTP) :
  now1 ≤ now2 →
  (sweep now2 (sweep now1 store).1).1 = (sweep now2 store).1
  ∧ ((sweep now1 store).2 + (sweep now2 (sweep now1 store).1).2
     = (sweep now2 store).2)%nat.
Proof.
  intros Hle.
  assert (Heq : (sweep now2 (sweep now1 store).1).1 = (sweep now2 store).1).
  { apply map_eq. intros key. rewrite !sweep_lookup.
    destruct (store !! key) as [v|]; [| done].
    destruct (Z.ltb_spec (expires v) now1) as [H1 | H1]; [| done].
    destruct (Z.ltb_spec (expires v) now2); [done | lia]. }
  split; [exact Heq |].
  pose proof (sweep_size now1 store).
  pose proof (sweep_size now2 store).
  pose proof (sweep_size now2 (sweep now1 store).1) as H12.
  rewrite Heq in H12. lia.
Qed.

Lemma sweep_later_subsumes_witness :
  (sweep 60001 (sweep 60000 store_two).1).1 = (sweep 60001 store_two).1
  ∧ ((sweep 60000 store_two).2 + (sweep 60001 (sweep 60000 store_two).1).2
     = (sweep 60001 store_two).2)%nat.
Proof. apply (sweep_later_subsumes 60000 60001 store_two). lia. Defined.

(** X9. The clean-up and a verification commute on the store: cleaning
    before or after a [consume] leaves the same records. For a clean-up
    that ran at or before the time of the [consume], the outcome is the
    one without the clean-up, except that an expired record the clean-up
    already took is reported as not found instead of expired. *)
Theorem sweep_consume_commute (now now' : Z) (key : string)
    (submitted : option string) (store : gmap string StoredOTP) :
  (consume now key submitted (sweep now' store).1).2
  = (sweep now' (consume now key submitted store).2).1
  ∧ (now' ≤ now →
     (consume now key submitted (sweep now' store).1).1
     = (consume now key submitted store).1
     ∨ ((consume now key submitted store).1 = Expired
        ∧ (consume now key submitted (sweep now' store).1).1 = NotFound
        ∧ ∃ v, store !! key = Some v ∧ expires v < now')).
Proof.
  destruct (store !! key) as [v|] eqn:Hv.
  2: { assert (Hgone : (sweep now' store).1 !! key = None)
         by by rewrite sweep_lookup, Hv.
       rewrite (consume_not_found _ _ _ _ Hgone), (consume_not_found _ _ _ _ Hv).
       split; [done | by left]. }
  destruct (Z.ltb_spec (expires v) now') as [Hstale | Hlive].
  - (* the clean-up took the record *)
    assert (Hgone : (sweep now' store).1 !! key = None).
    { rewrite sweep_lookup, Hv. by rewrite (proj2 (Z.ltb_lt _ _) Hstale). }
    assert (Hdel : (sweep now' (delete key store)).1 = (sweep now' store).1).
    { rewrite sweep_delete. by apply delete_id. }
    rewrite (consume_not_found _ _ _ _ Hgone). cbn [fst snd].
    destruct (Z.ltb_spec (expires v) now) as [Hexp | Hnot].
    + rewrite (consume_expired _ _ _ _ _ Hv Hexp). cbn [fst snd].
      split; [done |]. intros _. right. eauto.
    + destruct (decide (submitted = Some (otp v))) as [Heq | Hne].
      * rewrite (consume_valid _ _ _ _ _ Hv Hnot Heq). cbn [fst snd].
        split; [done |]. intros Hle. lia.
      * rewrite (consume_mismatch _ _ _ _ _ Hv Hnot Hne). cbn [fst snd].
        split; [done |]. intros Hle. lia.
  - (* the clean-up kept the record *)
    assert (Hkept : (sweep now' store).1 !! key = Some v).
    { rewrite sweep_lookup, Hv. by rewrite (proj2 (Z.ltb_ge _ _) Hlive). }
    destruct (Z.ltb_spec (expires v) now) as [Hexp | Hnot].
    + rewrite (consume_expired _ _ _ _ _ Hkept Hexp),
        (consume_expired _ _ _ _ _ Hv Hexp). cbn [fst snd].
      split; [by rewrite sweep_delete | by left].
    + destruct (decide (submitted = Some (otp v))) as [Heq | Hne].
      * rewrite (consume_valid _ _ _ _ _ Hkept Hnot Heq),
          (consume_valid _ _ _ _ _ Hv Hnot Heq). cbn [fst snd].
        split; [by rewrite sweep_delete | by left].
      * rewrite (consume_mismatch _ _ _ _ _ Hkept Hnot Hne),
          (consume_mismatch _ _ _ _ _ Hv Hnot Hne). cbn [fst snd].
        split; [done | by left].
Qed.

Example sweep_consume_outcomes :
  consume 61000 "testuser_0" (Some "7421") store_two = (Expired, delete "testuser_0" store_two)
  ∧ (consume 61000 "testuser_0" (Some "7421") (sweep 60500 store_two).1).1 = NotFound
  ∧ (consume 60000 "alice_5" (Some "4242") (sweep 60000 store_two).1).1 = Valid.
Proof. vm_compute. repeat split. Qed.

(** ** A second login while waiting (X10) *)

(** X10. A session that logs in again before verifying gives up its
    first attempt without revoking it. When the two accepted submissions
    differ in the username or in the millisecond of the key, the session
    afterwards holds the second key only; the first record is still in
    the store; the first code, if it is not also the second, is answered
    "Invalid OTP" while the second record is live; no [/verify-otp] of
    this session removes the first record; a clean-up after its expiry
    does. *)
Theorem second_login_orphans_first (user1 password1 user2 password2 : string)
    (e1 e2 : LoginEffects) (s : Session) (store : gmap string StoredOTP) :
  credential_guard (Some user1) (Some password1) = true →
  credential_guard (Some user2) (Some password2) = true →
  user1 ≠ user2 ∨ now_key e1 ≠ now_key e2 →
  let r1 := post_login (Some user1) (Some password1) e1 s store in
  let r2 := post_login (Some user2) (Some password2) e2
              (session_after r1) (store_after r1) in
  let key1 := make_otpKey user1 (now_key e1) in
  let record1 := {| otp := generated e1; expires := now_expires e1 + 60000;
                    username := user1 |} in
  otpKey (session_after r2) = Some (make_otpKey user2 (now_key e2))
  ∧ store_after r2 !! key1 = Some record1
  ∧ (∀ now date, now ≤ now_expires e2 + 60000 → generated e1 ≠ generated e2 →
       post_verify_otp (Some (generated e1)) now date
         (session_after r2) (store_after r2)
       = mkResult (Render "verify-otp" (Some invalid_msg))
           (session_after r2) (store_after r2))
  ∧ (∀ c now date,
       store_after (post_verify_otp c now date (session_after r2) (store_after r2))
         !! key1 = Some record1)
  ∧ (∀ now, now_expires e1 + 60000 < now →
       (sweep now (store_after r2)).1 !! key1 = None).
Proof.
  intros Hg1 Hg2 Hdiff. cbv zeta.
  rewrite (post_login_accepted _ _ _ _ _ Hg1). cbn [session_after store_after].
  rewrite (post_login_accepted _ _ _ _ _ Hg2). cbn [session_after store_after otpKey].
  set (key1 := make_otpKey user1 (now_key e1)).
  set (key2 := make_otpKey user2 (now_key e2)).
  assert (Hne : key2 ≠ key1).
  { unfold key1, key2. rewrite make_otpKey_inj. intros [-> Hk].
    destruct Hdiff as [? | ?]; congruence. }
  set (record1 := {| otp := generated e1; expires := now_expires e1 + 60000;
                     username := user1 |}).
  set (record2 := {| otp := generated e2; expires := now_expires e2 + 60000;
                     username := user2 |}).
  set (s2 := {| pendingAuth := _; otpKey := Some key2 |}).
  assert (H1 : <[key2 := record2]> (<[key1 := record1]> store) !! key1 = Some record1).
  { rewrite lookup_insert_ne by done. apply lookup_insert_eq. }
  assert (Hs2 : pending_on key2 s2).
  { split; [by eexists | split; [done |]]. apply make_otpKey_nonempty. }
  split; [done |]. split; [exact H1 |]. split; [| split].
  - intros now date Hnow Hcode.
    pose proof (post_verify_otp_consume (Some (generated e1)) now date s2
                  (<[key2 := record2]> (<[key1 := record1]> store)) key2 Hs2) as H.
    cbv zeta in H.
    rewrite (consume_mismatch now key2 _ _ record2) in H;
      [| apply lookup_insert_eq | done | cbn; congruence].
    cbn [fst snd] in H. destruct H as (Hst & Hr & Hse).
    destruct (post_verify_otp _ _ _ _ _); cbn in *; by subst.
  - intros c now date.
    pose proof (post_verify_otp_consume c now date s2
                  (<[key2 := record2]> (<[key1 := record1]> store)) key2 Hs2) as [-> _].
    unfold consume. rewrite lookup_insert_eq.
    destruct (expires record2 <? now); cbn [snd];
      [by rewrite lookup_delete_ne |].
    destruct (negb _); cbn [snd]; [done | by rewrite lookup_delete_ne].
  - intros now Hnow. rewrite sweep_lookup, H1. cbn [expires record1].
    by rewrite (proj2 (Z.ltb_lt _ _) Hnow).
Qed.

Lemma second_login_orphans_first_witness :
  let e2 := {| now_pending := 5000; now_key := 5000; now_expires := 5000;
               generated := "1111"; delivered := true |} in
  let r1 := post_login (Some "testuser") (Some "1234") (effects_A true)
              fresh_session ∅ in
  let r2 := post_login (Some "testuser") (Some "1234") e2
              (session_after r1) (store_after r1) in
  otpKey (session_after r2) = Some "testuser_5000"
  ∧ store_after r2 !! "testuser_0"
    = Some {| otp := "7421"; expires := 60000; username := "testuser" |}
  ∧ (sweep 60001 (store_after r2)).1 !! "testuser_0" = None.
Proof.
  cbv zeta.
  pose proof (second_login_orphans_first "testuser" "1234" "testuser" "1234"
                (effects_A true)
                {| now_pending := 5000; now_key := 5000; now_expires := 5000;
                   generated := "1111"; delivered := true |}
                fresh_session ∅ eq_refl eq_refl) as H.
  cbv zeta in H.
  destruct H as (Hk & Hrec & _ & _ & Hsweep).
  { right. cbn. lia. }
  split; [exact Hk |]. split; [exact Hrec |].
  apply Hsweep. cbn. lia.
Defined.

(** ** The GET routes (X11 to X13) *)

Lemma auth_complete_step op s store :
  auth_complete s → auth_complete (session_after (run op s store)).
Proof.
  intros Hc. destruct op as [u p e | c now date |]; cbn [run].
  - destruct (post_login_session u p e s store) as [-> | [user ->]]; done.
  - destruct (post_verify_otp_session c now date s store)
      as [-> | [-> | (pending & _ & ->)]]; [done | done |].
    intros _. cbn. eauto.
  - discriminate.
Qed.

Lemma reachable_auth_complete s : reachable s → auth_complete s.
Proof.
  induction 1 as [| op s store _ IH]; [discriminate | by apply auth_complete_step].
Qed.

Lemma reachable_session_authenticated : reachable session_authenticated.
Proof.
  unfold session_authenticated. apply reachable_step.
  change session_D with
    (session_after (run (SubmitCredentials (Some "testuser") (Some "1234")
                           (effects_A true)) fresh_session ∅)).
  apply reachable_step, reachable_fresh.
Qed.

(** X11. The dashboard is behind [requireAuth]: a session that is not
    authenticated is redirected to [/login], and a session the handlers
    can produce, once authenticated, is shown the dashboard with a
    username and a login time that are both set. *)
Theorem dashboard_access (s : Session) :
  reachable s →
  (authenticated s = false ∧ get_dashboard s = PageRedirect "/login")
  ∨ (∃ name time,
       authenticated s = true
       ∧ get_dashboard s = PageDashboard (Some name) (Some time)).
Proof.
  intros Hr. apply reachable_auth_complete in Hr.
  unfold get_dashboard, requireAuth.
  destruct (authenticated s) eqn:Ha; [| by left].
  right. destruct (Hr Ha) as [[name ->] [time ->]]. eauto.
Qed.

Lemma dashboard_access_witness :
  (authenticated session_authenticated = false
   ∧ get_dashboard session_authenticated = PageRedirect "/login")
  ∨ (∃ name time,
       authenticated session_authenticated = true
       ∧ get_dashboard session_authenticated
         = PageDashboard (Some name) (Some time)).
Proof.
  exact (dashboard_access session_authenticated reachable_session_authenticated).
Defined.

(** X12. The GET routes never send a client round in circles: from any
    of the four routes and any session, following redirects ends on a
    page within three requests. That page is the dashboard, with the
    session's username and login time, only for an authenticated session;
    the login page only for a session that is not authenticated; and the
    verification page only for a session with a pending login. *)
Theorem get_routes_end_on_a_page (path : string) (s : Session) :
  is_Some (get path s) →
  ∃ page,
    follow 3 path s = Some page
    ∧ (page = PageDashboard (session_username s) (loginTime s)
         ∧ authenticated s = true
       ∨ page = PageRender "login" None ∧ authenticated s = false
       ∨ page = PageRender "verify-otp" None ∧ is_Some (pendingAuth s)).
Proof.
  intros Hget.
  assert (Hpath : path = "/" ∨ path = "/login" ∨ path = "/verify-otp"
                  ∨ path = "/dashboard").
  { revert Hget. unfold get.
    destruct (String.eqb_spec path "/"); [by left |].
    destruct (String.eqb_spec path "/login"); [by right; left |].
    destruct (String.eqb_spec path "/verify-otp"); [by right; right; left |].
    destruct (String.eqb_spec path "/dashboard"); [by right; right; right |].
    by intros [? ?]. }
  clear Hget. destruct s as [pending key auth name time].
  destruct Hpath as [-> | [-> | [-> | ->]]];
    destruct auth, pending as [p|]; cbn;
    eexists; (split; [reflexivity |]); eauto 6.
Qed.

Lemma get_routes_end_on_a_page_witness :
  ∃ page,
    follow 3 "/verify-otp" session_authenticated = Some page
    ∧ (page = PageDashboard (session_username session_authenticated)
                (loginTime session_authenticated)
         ∧ authenticated session_authenticated = true
       ∨ page = PageRender "login" None
         ∧ authenticated session_authenticated = false
       ∨ page = PageRender "verify-otp" None
         ∧ is_Some (pendingAuth session_authenticated)).
Proof.
  apply (get_routes_end_on_a_page "/verify-otp" session_authenticated).
  vm_compute. eauto.
Defined.

(** An authenticated session that has logged in again is shown the
    verification page, not the dashboard, at [/verify-otp]. *)
Example get_verify_otp_relogin :
  authenticated session_relogin = true
  ∧ follow 3 "/verify-otp" session_relogin = Some (PageRender "verify-otp" None)
  ∧ follow 3 "/" session_relogin
    = Some (PageDashboard (Some "testuser") (Some 59000)).
Proof. vm_compute. repeat split. Qed.

(** X13. Every redirect a POST handler answers leads to a page: the
    client that follows it with GET requests, with the session the
    handler left, is on a page after at most two requests. *)
Theorem post_redirect_lands (op : Operation) (s : Session)
    (store : gmap string StoredOTP) (path : string) :
  response (run op s store) = Redirect path →
  ∃ page,
    follow 2 path (session_after (run op s store)) = Some page
    ∧ is_page page = true.
Proof.
  destruct op as [u p e | c now date |]; cbn [run].
  - destruct (post_login_cases u p e s store)
      as [[Hs Hst] | (user & password & -> & -> & Hg)].
    + (* turned down: the answer is a page, not a redirect *)
      revert Hs Hst. unfold post_login.
      destruct u as [user|]; [| discriminate].
      destruct p as [password|]; [| discriminate].
      destruct (_ || _); [discriminate |].
      destruct (20 <=? String.length user)%nat; [discriminate |].
      destruct (negb _); [discriminate |].
      destruct (delivered e); cbn; [| discriminate].
      intros _ _ [= <-]. eexists. split; reflexivity.
    + rewrite (post_login_accepted _ _ _ _ _ Hg). cbn [response session_after].
      destruct (delivered e); [| discriminate].
      intros [= <-]. eexists. split; reflexivity.
  - unfold post_verify_otp.
    destruct (pendingAuth s) as [pending|] eqn:Hp; cbn.
    2: { intros [= <-]. unfold follow, get. cbn. unfold get_login, get_dashboard, requireAuth.
         destruct (authenticated s) eqn:Ha; cbn; rewrite ?Ha;
           eexists; split; reflexivity. }
    destruct (negb (truthy (otpKey s))); cbn.
    { intros [= <-]. unfold follow, get. cbn. unfold get_login, get_dashboard, requireAuth.
      destruct (authenticated s) eqn:Ha; cbn; rewrite ?Ha;
        eexists; split; reflexivity. }
    destruct (store !! _) as [stored|]; cbn; [| discriminate].
    destruct (expires stored <? now); cbn; [discriminate |].
    destruct (negb _); cbn; [discriminate |].
    intros [= <-]. eexists. split; reflexivity.
  - intros [= <-]. eexists. split; reflexivity.
Qed.

Lemma post_redirect_lands_witness :
  ∃ page,
    follow 2 "/dashboard"
      (session_after (run (SubmitCode (Some "7421") 59000 59000) session_D store_D))
    = Some page
    ∧ is_page page = true.
Proof.
  apply (post_redirect_lands (SubmitCode (Some "7421") 59000 59000)
           session_D store_D "/dashboard").
  vm_compute. reflexivity.
Defined.

(** ** Start-up (X14, X15) *)

Lemma truthy_true (v : option string) :
  truthy v = true ↔ ∃ text, v = Some text ∧ text ≠ "".
Proof.
  destruct v as [text|]; cbn.
  - destruct (String.eqb_spec text ""); cbn; split.
    + done.
    + intros (? & [= <-] & ?). done.
    + eauto.
    + done.
  - split; [done | by intros (? & ? & _)].
Qed.

Lemma missing_vars_spec env name :
  In name (missing_vars env) ↔ In name required_vars ∧ truthy (env !! name) = false.
Proof.
  unfold missing_vars. rewrite filter_In, negb_true_iff. done.
Qed.

(** X14. The start-up check lets the process go on exactly when each of
    the four required variables is set to a non-empty string. Otherwise
    it exits with status 1, and the names it reports are exactly the
    required names that are unset or empty, in the order of the list. With
    the check passed, the mail user, the mail password, the test address
    and the session secret of the configuration are all non-empty. *)
Theorem startup_check (env : gmap string string) :
  (validateEnvVars env = Continue ↔
     ∀ name, In name required_vars → ∃ text, env !! name = Some text ∧ text ≠ "")
  ∧ (∀ status reported, validateEnvVars env = Exit status reported →
       status = 1 ∧ reported ≠ []
       ∧ reported = List.filter (λ name, negb (truthy (env !! name))) required_vars
       ∧ ∀ name, In name reported ↔
                 In name required_vars ∧ truthy (env !! name) = false)
  ∧ (validateEnvVars env = Continue →
       truthy (email_user (config env)) = true
       ∧ truthy (email_pass (config env)) = true
       ∧ truthy (email_testEmail (config env)) = true
       ∧ truthy (session_secret (config env)) = true).
Proof.
  assert (Hcont : validateEnvVars env = Continue ↔ missing_vars env = []).
  { unfold validateEnvVars. destruct (missing_vars env); cbn; split; done. }
  assert (Hall : missing_vars env = [] ↔
            ∀ name, In name required_vars → truthy (env !! name) = true).
  { split.
    - intros Hnil name Hin.
      destruct (truthy (env !! name)) eqn:Ht; [done |].
      assert (Hm : In name (missing_vars env)) by by apply missing_vars_spec.
      rewrite Hnil in Hm. destruct Hm.
    - intros Hforall. destruct (missing_vars env) as [| name rest] eqn:Hm; [done |].
      assert (Hin : In name (missing_vars env)) by (rewrite Hm; by left).
      apply missing_vars_spec in Hin as [Hreq Hf].
      rewrite (Hforall name Hreq) in Hf. discriminate. }
  split; [| split].
  - rewrite Hcont, Hall. by setoid_rewrite truthy_true.
  - intros status reported. unfold validateEnvVars.
    destruct (missing_vars env) as [| name rest] eqn:Hm; cbn; [discriminate |].
    intros [= <- <-]. split; [done |]. split; [done |].
    split; [by rewrite <- Hm |].
    intros n. rewrite <- Hm. apply missing_vars_spec.
  - intros Hc. apply (proj1 Hcont) in Hc. pose proof (proj1 Hall Hc) as Hset.
    cbn [config email_user email_pass email_testEmail session_secret].
    split; [| split; [| split]]; apply Hset; cbn; auto 6.
Qed.

Example startup_check_missing :
  validateEnvVars {[ "EMAIL_USER" := "me@example.org"; "EMAIL_PASS" := "";
                     "TEST_EMAIL" := "you@example.org" ]}
  = Exit 1 [ "EMAIL_PASS"; "SESSION_SECRET" ].
Proof. vm_compute. reflexivity. Qed.

(** X15. The configuration is consistent about production: cookies are
    marked secure exactly when the reported environment is "production",
    the reported environment is never empty, and it is "development"
    exactly when [NODE_ENV] is unset, empty or "development" itself. The
    port is the number 3000 exactly when [PORT] is unset or empty. *)
Theorem config_environment (env : gmap string string) :
  (session_secure (config env) = true ↔ server_nodeEnv (config env) = "production")
  ∧ server_nodeEnv (config env) ≠ ""
  ∧ (server_nodeEnv (config env) = "development" ↔
       env !! "NODE_ENV" = None ∨ env !! "NODE_ENV" = Some ""
       ∨ env !! "NODE_ENV" = Some "development")
  ∧ (server_port (config env) = PortNumber 3000 ↔
       env !! "PORT" = None ∨ env !! "PORT" = Some "").
Proof.
  unfold config. cbn [session_secure server_nodeEnv server_port].
  destruct (env !! "NODE_ENV") as [mode|]; cbn.
  - destruct (String.eqb_spec mode "") as [-> | Hmode]; cbn.
    + split; [| split; [| split]].
      * rewrite bool_decide_eq_false_2 by discriminate. split; discriminate.
      * discriminate.
      * split; eauto.
      * destruct (env !! "PORT") as [port|]; cbn;
          [| split; eauto].
        destruct (String.eqb_spec port "") as [-> | Hport]; cbn; split; eauto;
          try discriminate.
        intros [? | [= ?]]; done.
    + split; [| split; [| split]].
      * rewrite bool_decide_eq_true. split; [by intros [= ->] | by intros ->].
      * done.
      * split; [intros ->; eauto | intros [? | [[= ->] | [= ->]]]; done].
      * destruct (env !! "PORT") as [port|]; cbn;
          [| split; eauto].
        destruct (String.eqb_spec port "") as [-> | Hport]; cbn; split; eauto;
          try discriminate.
        intros [? | [= ?]]; done.
  - split; [| split; [| split]].
    + rewrite bool_decide_eq_false_2 by discriminate. split; discriminate.
    + discriminate.
    + split; eauto.
    + destruct (env !! "PORT") as [port|]; cbn;
        [| split; eauto].
      destruct (String.eqb_spec port "") as [-> | Hport]; cbn; split; eauto;
        try discriminate.
      intros [? | [= ?]]; done.
Qed.

(** ** [/login] on fields of any kind (C7) *)

(** On text, [Body.post_login] is [post_login]. *)
Lemma post_login_on_text {V : Type} `{Body.Value V}
    (body_username body_password : option string) (e : LoginEffects)
    (s : Session) (store : gmap string StoredOTP) :
  Body.post_login (Body.field body_username) (Body.field body_password) e
    (session_of_text s) (store_of_text store)
  = result_of_text (post_login body_username body_password e s store).
Proof.
  unfold Body.post_login, post_login, result_of_text.
  destruct body_username as [user|]; cbn [Body.field].
  2: { rewrite Body.falsy_undefined. by destruct body_password. }
  destruct body_password as [password|]; cbn [Body.field].
  2: { by rewrite Body.falsy_undefined, orb_true_r. }
  rewrite !Body.falsy_text, Body.length_ge_20_text, !Body.to_string_text.
  unfold truthy. rewrite !negb_involutive.
  destruct (_ || _); [done |].
  destruct (20 <=? String.length user)%nat; [done |].
  destruct (negb (test_four_digits password)); [done |].
  cbv zeta.
  destruct (delivered e); cbn [response session_after store_after];
    unfold session_of_text, store_of_text; rewrite fmap_insert; reflexivity.
Qed.

(** C7 on the code: a username that is not a text passes the guard with
    a name of 25 characters, or with no length at all. An array holding
    the long name (the form field [username[]]) and the JSON value [true]
    are both accepted, with the password 1234: the handler redirects to
    the verification page and a record is stored for each, where the
    stated guard turns the submission down. *)
Theorem non_text_username_accepted :
  guard_as_stated (JArray [JString long_name]) (JString "1234") = false
  ∧ String.length long_name = 25%nat
  ∧ Body.post_login (JArray [JString long_name]) (JString "1234")
      (effects_A true) fresh_body_session ∅
    = Body.mkResult (Body.Sent (Redirect "/verify-otp"))
        {| Body.pendingAuth :=
             Some {| Body.pending_username := JArray [JString long_name];
                     Body.timestamp := 0 |};
           Body.otpKey := Some "aaaaaaaaaaaaaaaaaaaaaaaaa_0";
           Body.authenticated := false;
           Body.session_username := None;
           Body.loginTime := None |}
        {[ "aaaaaaaaaaaaaaaaaaaaaaaaa_0" :=
             {| Body.otp := "7421"; Body.expires := 60000;
                Body.username := JArray [JString long_name] |} ]}
  ∧ guard_as_stated (JBool true) (JString "1234") = false
  ∧ Body.answer (Body.post_login (JBool true) (JString "1234")
                   (effects_A true) fresh_body_session ∅)
    = Body.Sent (Redirect "/verify-otp")
  ∧ Body.store_after (Body.post_login (JBool true) (JString "1234")
                        (effects_A true) fresh_body_session ∅)
      !! "true_0"
    = Some {| Body.otp := "7421"; Body.expires := 60000;
              Body.username := JBool true |}
  ∧ ¬ guard_exact_as_stated.
Proof.
  split; [reflexivity |]. split; [reflexivity |].
  split; [by vm_compute |].
  split; [reflexivity |].
  split; [by vm_compute |].
  split; [by vm_compute |].
  intros H.
  destruct (H (JArray [JString long_name]) (JString "1234") (effects_A true)
              fresh_body_session ∅) as [Hrej _].
  destruct (Hrej eq_refl) as [Hin _].
  revert Hin. vm_compute. intros Hin.
  repeat (apply elem_of_cons in Hin as [Hin | Hin]; [discriminate |]).
  by apply elem_of_nil in Hin.
Qed.

(** What does hold of the guard. On a submission whose username and
    password are text, or absent, the guard of [/login] accepts exactly the
    non-empty usernames shorter than 20 with a password of exactly four
    digits: an accepted submission stores its record and sets the
    session's key, a rejected one is answered a validation error. On any
    submission, whatever kind of value its fields are, a validation error
    leaves the session as it was and the store untouched. *)
Theorem login_guard_any_body (V : Type) (ops : Body.Value V)
    (body_username body_password : V) (e : LoginEffects)
    (s : Body.Session V) (store : gmap string (Body.StoredOTP V)) :
  let r := Body.post_login body_username body_password e s store in
  (Body.answer r ∈ validation_answers →
     Body.session_after r = s ∧ Body.store_after r = store)
  ∧ (∀ text_username text_password : option string,
       body_username = Body.field text_username →
       body_password = Body.field text_password →
       if credential_guard text_username text_password then
         ∃ user,
           text_username = Some user
           ∧ (Body.answer r = Body.Sent (Redirect "/verify-otp")
              ∨ Body.answer r = Body.Sent (Render "login" (Some send_failed_msg)))
           ∧ Body.otpKey (Body.session_after r)
             = Some (make_otpKey user (now_key e))
           ∧ Body.store_after r
             = <[ make_otpKey user (now_key e) :=
                    {| Body.otp := generated e;
                       Body.expires := now_expires e + 60000;
                       Body.username := Body.text user |} ]> store
       else
         Body.answer r ∈ validation_answers
         ∧ Body.session_after r = s
         ∧ Body.store_after r = store).
Proof.
  cbv zeta.
  assert (Hreq : Body.Sent (Render "login" (Some required_msg)) ∈ validation_answers)
    by apply list_elem_of_here.
  assert (Hlong : Body.Sent (Render "login" (Some too_long_msg)) ∈ validation_answers)
    by apply list_elem_of_further, list_elem_of_here.
  assert (Hdig : Body.Sent (Render "login" (Some not_digits_msg)) ∈ validation_answers)
    by (do 2 apply list_elem_of_further; apply list_elem_of_here).
  assert (Hno : ∀ a, a ∈ validation_answers →
            a ≠ Body.Thrown ∧ a ≠ Body.Sent (Redirect "/verify-otp")
            ∧ a ≠ Body.Sent (Render "login" (Some send_failed_msg))).
  { intros a Hin. unfold validation_answers, validation_errors in Hin.
    cbn in Hin.
    repeat (apply elem_of_cons in Hin as [-> | Hin]; [by repeat split |]).
    by apply elem_of_nil in Hin. }
  split.
  - (* any values *)
    unfold Body.post_login.
    destruct (_ || _); [done |].
    destruct (Body.length_ge_20 body_username) as [[|]|]; [done | | done].
    destruct (Body.to_string body_password) as [password_text|]; [| done].
    destruct (negb _); [done |].
    destruct (Body.to_string body_username) as [name|]; cbn.
    + destruct (delivered e); cbn; intros Hin; by destruct (Hno _ Hin) as (? & ? & ?).
    + intros Hin. by destruct (Hno _ Hin) as (? & ? & ?).
  - (* text *)
    intros text_username text_password -> ->.
    unfold Body.post_login, credential_guard.
    destruct text_username as [user|]; cbn [Body.field].
    2: { by rewrite Body.falsy_undefined. }
    destruct text_password as [password|]; cbn [Body.field].
    2: { by rewrite Body.falsy_undefined, orb_true_r. }
    rewrite !Body.falsy_text, Body.length_ge_20_text, !Body.to_string_text.
    rewrite test_four_digits_spec, Nat.leb_antisym.
    destruct (String.eqb user ""); cbn [negb orb andb]; [done |].
    destruct (String.eqb password ""); cbn [negb orb andb].
    { by rewrite andb_false_r. }
    rewrite andb_true_r.
    destruct (String.length user <? 20)%nat; cbn [negb orb andb]; [| done].
    destruct ((String.length password =? 4)%nat && all_digits password);
      cbn [negb]; [| done].
    exists user. split; [done |].
    destruct (delivered e); cbn; eauto.
Qed.

(** Scenario B on the handler of any fields, and its variant with the
    long name in an array. *)
Example scenario_B_any_body :
  Body.post_login (JString long_name) (JString "1234") (effects_A true)
    fresh_body_session ∅
  = Body.mkResult (Body.Sent (Render "login" (Some too_long_msg)))
      fresh_body_session ∅.
Proof. reflexivity. Qed.

(** ** Login by an authenticated session (C5) *)

(** C5 on the code: the session authenticated in scenario D satisfies the
    invariant, and [GET /login] sends it to the dashboard; but
    [POST /login] accepts its credentials, and the session then has an
    authenticated username and a pending key at once, its phase still
    Authenticated: the invariant is broken. *)
Theorem relogin_while_authenticated :
  reachable session_authenticated
  ∧ session_invariant session_authenticated
  ∧ get_login session_authenticated = PageRedirect "/dashboard"
  ∧ run (SubmitCredentials (Some "testuser") (Some "1234")
           {| now_pending := 70000; now_key := 70000; now_expires := 70000;
              generated := "1111"; delivered := true |})
        session_authenticated ∅
    = mkResult (Redirect "/verify-otp")
        {| pendingAuth := Some {| pending_username := "testuser";
                                  timestamp := 70000 |};
           otpKey := Some "testuser_70000";
           authenticated := true;
           session_username := Some "testuser";
           loginTime := Some 59000 |}
        {[ "testuser_70000" :=
             {| otp := "1111"; expires := 130000; username := "testuser" |} ]}
  ∧ reachable session_relogin
  ∧ currentPhase session_relogin = AuthenticatedPhase
  ∧ both_populated session_relogin
  ∧ ¬ session_invariant session_relogin.
Proof.
  assert (Hboth : both_populated session_relogin).
  { split; vm_compute; eauto. }
  split; [apply reachable_session_authenticated |].
  split.
  { unfold session_authenticated.
    apply session_invariant_step; [| exact I].
    change session_D with
      (session_after (run (SubmitCredentials (Some "testuser") (Some "1234")
                             (effects_A true)) fresh_session ∅)).
    apply session_invariant_step; [apply fresh_session_invariant | reflexivity]. }
  split; [by vm_compute |].
  split; [by vm_compute |].
  split.
  { unfold session_relogin. apply reachable_step, reachable_session_authenticated. }
  split; [by vm_compute |].
  split; [exact Hboth |].
  intros Hinv. by apply (session_invariant_exclusive _ Hinv).
Qed.
